(** * DiskBroom: the single-pass file analysis of [disk_broom.py]

    A shallow embedding of [validate_directory_path], [compute_file_hash],
    [get_file_attributes] and [analyze_files], together with the pieces of
    the Python library they call ([str.lower], [str.startswith],
    [str.endswith], [os.path.join], [os.path.splitext], [hashlib.sha256]),
    and of the functions around them: [confirm_action],
    [execute_system_command], [clean_system_packages_and_logs],
    [empty_trash_directory], [clean_user_and_browser_caches],
    [format_file_size] and the control flow of [main].

    Conventions of the model.
    - Python [str] values are [string], one character per byte: the model
      is of ASCII text.  [lower] folds the ASCII letters and [strip] removes
      the ASCII white space only; a statement that depends on either for
      arbitrary input assumes the input to be ASCII.
    - Sizes, thresholds and timestamps are [Z].  [st_atime], [st_mtime] and
      [time.time()] are read in one common unit; the rounding of binary
      floating point is outside the model.  Of its range, the one place
      where the source can raise is modelled: the conversion of the integer
      [months * 30 * 24 * 3600] to a float ([float_overflow]).
    - The file system is a record of functions (the tree is not mutated
      while it is scanned).  The wall clock is a sequence of readings: each
      evaluation of [time.time()] consumes the next one.  The number of
      readings consumed and the list of file system calls made are carried
      along with the program state, so that properties of the form "is
      never read" or "is read exactly when" can be stated.
    - [console.print] and [logging] output is not part of the model. *)

From Stdlib Require Import ZArith String Ascii List Bool Lia.
From Stdlib Require Strings.Byte.
From stdpp Require Import gmap strings list fin_maps pretty.
From Equations Require Import Equations.

Local Open Scope string_scope.
Local Open Scope list_scope.
Local Open Scope Z_scope.

(** ** Python strings *)

Module PyStr.

Definition lower_char (c : ascii) : ascii :=
  let n := nat_of_ascii c in
  if ((65 <=? n) && (n <=? 90))%nat then ascii_of_nat (n + 32) else c.

(** [s.lower()] *)
Fixpoint lower (s : string) : string :=
  match s with
  | EmptyString => EmptyString
  | String c s' => String (lower_char c) (lower s')
  end.

(** [s.startswith(pfx)] *)
Fixpoint startswith (s pfx : string) : bool :=
  match pfx, s with
  | EmptyString, _ => true
  | String _ _, EmptyString => false
  | String a pfx', String b s' => Ascii.eqb a b && startswith s' pfx'
  end.

(** [s[i:]] for [0 <= i] *)
Fixpoint drop (i : nat) (s : string) : string :=
  match i, s with
  | O, _ => s
  | S _, EmptyString => EmptyString
  | S i', String _ s' => drop i' s'
  end.

(** [s[:i]] for [0 <= i] *)
Fixpoint take (i : nat) (s : string) : string :=
  match i, s with
  | O, _ => EmptyString
  | S _, EmptyString => EmptyString
  | S i', String c s' => String c (take i' s')
  end.

(** [s.endswith(sfx)]: the last [len(sfx)] characters of [s] are [sfx]. *)
Definition endswith (s sfx : string) : bool :=
  let n := String.length s in
  let m := String.length sfx in
  (m <=? n)%nat && String.eqb (drop (n - m) s) sfx.

(** [s.endswith((x1, ..., xn))] and [any(s.startswith(x) for x in xs)] *)
Definition endswith_any (s : string) (sfxs : list string) : bool :=
  existsb (endswith s) sfxs.

Definition startswith_any (s : string) (pfxs : list string) : bool :=
  existsb (startswith s) pfxs.

(** [x in xs] for a collection of strings *)
Definition mem (x : string) (xs : list string) : bool :=
  existsb (String.eqb x) xs.

Fixpoint rfind_from (c : ascii) (s : string) (i last : Z) : Z :=
  match s with
  | EmptyString => last
  | String a s' => rfind_from c s' (i + 1) (if Ascii.eqb a c then i else last)
  end.

(** [s.rfind(c)]: the highest index of [c], or [-1]. *)
Definition rfind (c : ascii) (s : string) : Z := rfind_from c s 0 (-1).

(** truth value of a string: [bool(s)] *)
Definition truthy (s : string) : bool :=
  match s with EmptyString => false | String _ _ => true end.

End PyStr.

(** ** [os.path] (POSIX flavour) *)

Module OsPath.
Import PyStr.

(** [os.path.join(a, b)] with two components. *)
Definition join (a b : string) : string :=
  if startswith b "/" then b
  else if negb (truthy a) || endswith a "/" then a +:+ b
  else a +:+ "/" +:+ b.

(** The loop of [genericpath._splitext] that skips leading dots: starting
    at [filenameIndex], run at most [n] iterations and report whether a
    character other than the dot was met. *)
Fixpoint stem_found (p : string) (filenameIndex : nat) (n : nat) : bool :=
  match n with
  | O => false
  | S n' =>
      match String.get filenameIndex p with
      | Some c =>
          if negb (Ascii.eqb c ".") then true
          else stem_found p (S filenameIndex) n'
      | None => true
      end
  end.

(** [os.path.splitext(p)] *)
Definition splitext (p : string) : string * string :=
  let sepIndex := rfind "/" p in
  let dotIndex := rfind "." p in
  if dotIndex >? sepIndex then
    let filenameIndex := sepIndex + 1 in
    if stem_found p (Z.to_nat filenameIndex) (Z.to_nat (dotIndex - filenameIndex))
    then (take (Z.to_nat dotIndex) p, drop (Z.to_nat dotIndex) p)
    else (p, EmptyString)
  else (p, EmptyString).

End OsPath.

(** ** [hashlib.sha256] (FIPS 180-4), on 32-bit words held in [Z] *)

Module SHA256.

Definition mask32 : Z := 4294967295.

Definition add32 (a b : Z) : Z := Z.land (a + b) mask32.
Definition rotr (n x : Z) : Z :=
  Z.lor (Z.shiftr x n) (Z.land (Z.shiftl x (32 - n)) mask32).
Definition shr (n x : Z) : Z := Z.shiftr x n.
Definition not32 (x : Z) : Z := Z.lxor x mask32.

Definition Ch (x y z : Z) : Z := Z.lxor (Z.land x y) (Z.land (not32 x) z).
Definition Maj (x y z : Z) : Z :=
  Z.lxor (Z.lxor (Z.land x y) (Z.land x z)) (Z.land y z).
Definition Sigma0 (x : Z) : Z := Z.lxor (Z.lxor (rotr 2 x) (rotr 13 x)) (rotr 22 x).
Definition Sigma1 (x : Z) : Z := Z.lxor (Z.lxor (rotr 6 x) (rotr 11 x)) (rotr 25 x).
Definition sigma0 (x : Z) : Z := Z.lxor (Z.lxor (rotr 7 x) (rotr 18 x)) (shr 3 x).
Definition sigma1 (x : Z) : Z := Z.lxor (Z.lxor (rotr 17 x) (rotr 19 x)) (shr 10 x).

(** The first primes, by trial division. *)
Definition is_prime (n : nat) : bool :=
  (2 <=? n)%nat && forallb (fun d => negb (n mod d =? 0)%nat) (seq 2 (n - 2)).

Definition primes (count : nat) : list Z :=
  map Z.of_nat (firstn count (List.filter is_prime (seq 2 310))).

(** The integer cube root, one bit at a time from bit [bits - 1] down. *)
Fixpoint cube_root_bits (bits : nat) (n x : Z) : Z :=
  match bits with
  | O => x
  | S b =>
      let y := x + 2 ^ Z.of_nat b in
      cube_root_bits b n (if y * y * y <=? n then y else x)
  end.

(** The first 32 bits of the fractional part of a cube root and of a
    square root. *)
Definition frac_cbrt32 (p : Z) : Z := Z.land (cube_root_bits 36 (p * 2 ^ 96) 0) mask32.
Definition frac_sqrt32 (p : Z) : Z := Z.land (Z.sqrt (p * 2 ^ 64)) mask32.

(** The round constants: from the cube roots of the first 64 primes. *)
Definition K : list Z := Eval vm_compute in map frac_cbrt32 (primes 64).

(** The chaining value: eight 32-bit words. *)
Record state := mkState
  { ha : Z; hb : Z; hc : Z; hd : Z; he : Z; hf : Z; hg : Z; hh : Z }.

(** The initial value: from the square roots of the first 8 primes. *)
Definition H0 : state :=
  Eval vm_compute in
    match map frac_sqrt32 (primes 8) with
    | [a; b; c; d; e; f; g; h] => mkState a b c d e f g h
    | _ => mkState 0 0 0 0 0 0 0 0
    end.

(** Padding: the byte 0x80, zeros up to 56 modulo 64, the bit length on
    eight bytes, big endian. *)
Definition be_bytes (n : nat) (x : Z) : list Z :=
  map (fun i => Z.land (Z.shiftr x (8 * Z.of_nat i)) 255) (rev (seq 0 n)).

Definition pad (msg : list Z) : list Z :=
  let len := Z.of_nat (length msg) in
  msg ++ [128] ++ repeat 0 (Z.to_nat ((55 - len) mod 64)) ++ be_bytes 8 (8 * len).

Fixpoint be_words (n : nat) (bytes : list Z) : list Z :=
  match n with
  | O => []
  | S n' =>
      match bytes with
      | b0 :: b1 :: b2 :: b3 :: rest =>
          (Z.shiftl b0 24 + Z.shiftl b1 16 + Z.shiftl b2 8 + b3) :: be_words n' rest
      | _ => []
      end
  end.

Fixpoint blocks (n : nat) (bytes : list Z) : list (list Z) :=
  match n with
  | O => []
  | S n' => be_words 16 (firstn 64 bytes) :: blocks n' (skipn 64 bytes)
  end.

(** The message schedule, most recent word first. *)
Fixpoint schedule (n : nat) (w_rev : list Z) : list Z :=
  match n with
  | O => w_rev
  | S n' =>
      let w := add32 (add32 (sigma1 (nth 1 w_rev 0)) (nth 6 w_rev 0))
                     (add32 (sigma0 (nth 14 w_rev 0)) (nth 15 w_rev 0)) in
      schedule n' (w :: w_rev)
  end.

Definition round (s : state) (kw : Z * Z) : state :=
  let t1 := add32 (add32 (add32 (hh s) (Sigma1 (he s))) (Ch (he s) (hf s) (hg s)))
                  (add32 (fst kw) (snd kw)) in
  let t2 := add32 (Sigma0 (ha s)) (Maj (ha s) (hb s) (hc s)) in
  mkState (add32 t1 t2) (ha s) (hb s) (hc s) (add32 (hd s) t1) (he s) (hf s) (hg s).

Definition compress (h : state) (block : list Z) : state :=
  let w := rev (schedule 48 (rev block)) in
  let s := fold_left round (combine K w) h in
  mkState (add32 (ha h) (ha s)) (add32 (hb h) (hb s)) (add32 (hc h) (hc s))
          (add32 (hd h) (hd s)) (add32 (he h) (he s)) (add32 (hf h) (hf s))
          (add32 (hg h) (hg s)) (add32 (hh h) (hh s)).

Definition digest_state (msg : list Byte.byte) : state :=
  let padded := pad (map (fun b => Z.of_N (Byte.to_N b)) msg) in
  fold_left compress (blocks (length padded / 64) padded) H0.

Definition hex_digit (x : Z) : ascii :=
  nth (Z.to_nat (Z.land x 15))
      (list_ascii_of_string "0123456789abcdef") "0"%char.

Definition hex8 (x : Z) (tail : string) : string :=
  String (hex_digit (Z.shiftr x 28)) (String (hex_digit (Z.shiftr x 24))
  (String (hex_digit (Z.shiftr x 20)) (String (hex_digit (Z.shiftr x 16))
  (String (hex_digit (Z.shiftr x 12)) (String (hex_digit (Z.shiftr x 8))
  (String (hex_digit (Z.shiftr x 4)) (String (hex_digit x) tail))))))).

(** [hashlib.sha256(msg).hexdigest()] *)
Definition hexdigest (msg : list Byte.byte) : string :=
  let s := digest_state msg in
  hex8 (ha s) (hex8 (hb s) (hex8 (hc s) (hex8 (hd s)
  (hex8 (he s) (hex8 (hf s) (hex8 (hg s) (hex8 (hh s) EmptyString))))))).

End SHA256.

(** ** The environment of a scan *)

(** The fields of [os.stat(path)] that the program reads. *)
Record stat_result := mkStat { st_size : Z; st_atime : Z; st_mtime : Z }.

(** What the operating system answers.  [None] stands for a raised
    exception ([OSError] and the like). *)
Record World := mkWorld {
  w_expanduser : string -> string;                 (* os.path.expanduser *)
  w_exists : string -> bool;                       (* os.path.exists *)
  w_isdir : string -> bool;                        (* os.path.isdir *)
  w_walk : string -> list (string * list string * list string);
                                                   (* os.walk: dirpath, dirnames, filenames *)
  w_stat : string -> option stat_result;           (* os.stat *)
  w_open : string -> option (list Byte.byte);      (* open(path, 'rb') and its reads *)
  w_time : nat -> Z                                (* the n-th reading of time.time() *)
}.

(** The calls a scan makes on the file system, in the order it makes them. *)
Inductive Call :=
| CallStat (path : string)
| CallHash (path : string) (sample : bool).

(** Effects threaded through the scan: how many clock readings were
    consumed, and the calls made so far. *)
Record Env := mkEnv { ticks : nat; calls : list Call }.

Definition env0 : Env := mkEnv 0 [].

(** ** [validate_directory_path] *)

(** The Python function returns [False] (here [None]) or the expanded path. *)
Definition validate_directory_path (w : World) (path : option string) : option string :=
  match path with
  | None => None
  | Some path =>
      let path := w_expanduser w path in
      if negb (w_exists w path) then None
      else if negb (w_isdir w path) then None
      else Some path
  end.

(** ** [compute_file_hash] *)

(** A file object opened for reading is the bytes not yet consumed;
    [f.read(n)] returns the next [n] bytes (fewer at the end of the file)
    and advances. *)
Definition file_read (n : nat) (f : list Byte.byte) : list Byte.byte * list Byte.byte :=
  (firstn n f, skipn n f).

(** A [hashlib] object is the bytes fed to it so far. *)
Definition hasher_update (hasher block : list Byte.byte) : list Byte.byte :=
  hasher ++ block.

(** [for block in iter(lambda: f.read(block_size), b''): hasher.update(block)].
    The sentinel [b''] is read when [block_size] is 0 or the file is
    exhausted. *)
Equations? read_blocks (block_size : nat) (f hasher : list Byte.byte)
  : list Byte.byte by wf (length f) lt :=
read_blocks O f hasher := hasher;
read_blocks (S n) [] hasher := hasher;
read_blocks (S n) (b :: f) hasher :=
  read_blocks (S n) (snd (file_read (S n) (b :: f)))
              (hasher_update hasher (fst (file_read (S n) (b :: f)))).
Proof. simpl. rewrite length_drop. lia. Qed.

Definition sample_bytes : nat := Z.to_nat (1024 * 1024).
Definition default_block_size : nat := Z.to_nat 65536.

Definition compute_file_hash (w : World) (path : string)
    (block_size : nat) (sample : bool) : option string :=
  match w_open w path with
  | Some f =>
      let hasher := [] in
      let hasher :=
        if sample then hasher_update hasher (fst (file_read sample_bytes f))
        else read_blocks block_size f hasher in
      Some (SHA256.hexdigest hasher)
  | None => None
  end.

(** ** [get_file_attributes] *)

Record Attributes := mkAttributes {
  size : Z;
  is_oversized : bool;
  is_old : bool;
  is_stale_download : bool;
  last_access : Z;
  last_mod : Z
}.

(** [float(x)] for an integer [x] raises [OverflowError] when [x] does not
    round to a finite double: the largest double is [2^1024 - 2^971], and
    the integers from [2^1024 - 2^970] on round to [2^1024].  This is the
    conversion that [time.time() - (months * 30 * 24 * 3600)] applies to its
    integer operand. *)
Definition float_overflow (x : Z) : bool :=
  Z.abs x >=? 2 ^ 1024 - 2 ^ 970.

(** The [try] block: [os.stat] may raise, and so may the subtraction that
    computes [threshold], after [time.time()] has been read; either
    exception is caught and [None] is returned. *)
Definition get_file_attributes (w : World) (file_path : string)
    (months oversized_threshold download_stale_secs : Z) (env : Env)
  : option Attributes * Env :=
  let env := mkEnv (ticks env) (calls env ++ [CallStat file_path]) in
  match w_stat w file_path with
  | Some file_stat =>
      let size := st_size file_stat in
      let is_oversized := size >? oversized_threshold in
      let last_access := st_atime file_stat in
      let last_mod := st_mtime file_stat in
      let now := w_time w (ticks env) in
      let env := mkEnv (S (ticks env)) (calls env) in
      if float_overflow (months * 30 * 24 * 3600) then (None, env) else
      let threshold := now - (months * 30 * 24 * 3600) in
      let is_old := (last_access <? threshold) && (last_mod <? threshold) in
      let '(is_stale_download, env) :=
        if PyStr.endswith_any file_path [".crdownload"; ".part"]
        then ((w_time w (ticks env) - last_mod) >? download_stale_secs,
              mkEnv (S (ticks env)) (calls env))
        else (false, env) in
      (Some (mkAttributes size is_oversized is_old is_stale_download
                          last_access last_mod), env)
  | None => (None, env)
  end.

(** ** [analyze_files] *)

Module junk_file_patterns.
Definition ext : list string := [".old"; ".part"; ".crdownload"; ".trash"].
Definition prefix : list string := ["unconfirmed"; "trash"; "core"].
Definition suffix : list string := [".crdownload"; ".part"; "trash"].
Definition exact : list string := [".trash"; ".trash-1000"].
End junk_file_patterns.

(** The local variables of the loop, and the effects so far.  The
    dictionary [file_hashes] is a finite map: the order of its keys is not
    represented, the order inside each list of paths is. *)
Record ScanState := mkScan {
  oversized_files : list (string * Z);
  old_files : list (string * Z * Z);
  junk_files : list (string * string);
  file_hashes : gmap string (list string);
  scan_errors : list string;
  scan_env : Env
}.

Definition scan0 : ScanState := mkScan [] [] [] ∅ [] env0.

(** [file_hashes[file_hash].append(full_path)] on a [defaultdict(list)] *)
Definition hashes_append (file_hash full_path : string)
    (file_hashes : gmap string (list string)) : gmap string (list string) :=
  <[file_hash := default [] (file_hashes !! file_hash) ++ [full_path]]> file_hashes.

(** The body of the inner loop, for one [filename] of one [dirpath]. *)
Definition process_file (w : World)
    (min_duplicate_size months oversized_threshold download_stale_secs : Z)
    (dirpath filename : string) (s : ScanState) : ScanState :=
  let full_path := OsPath.join dirpath filename in
  let name_lower := PyStr.lower filename in
  let ext := PyStr.lower (snd (OsPath.splitext filename)) in
  let '(attributes, env) :=
    get_file_attributes w full_path months oversized_threshold
                        download_stale_secs (scan_env s) in
  match attributes with
  | None =>
      mkScan (oversized_files s) (old_files s) (junk_files s) (file_hashes s)
             (scan_errors s ++ ["Error accessing " +:+ full_path]) env
  | Some attributes =>
      let oversized_files :=
        if is_oversized attributes
        then oversized_files s ++ [(full_path, size attributes)]
        else oversized_files s in
      let old_files :=
        if is_old attributes
        then old_files s ++ [(full_path, last_access attributes, last_mod attributes)]
        else old_files s in
      let junk_files :=
        if size attributes =? 0
        then junk_files s ++ [(full_path, "Empty File")]
        else if PyStr.mem ext junk_file_patterns.ext
                || PyStr.startswith_any name_lower junk_file_patterns.prefix
                || PyStr.endswith_any name_lower junk_file_patterns.suffix
                || PyStr.mem name_lower junk_file_patterns.exact
                || is_stale_download attributes
        then junk_files s ++
             [(full_path, if negb (is_stale_download attributes)
                          then "Temporary File"
                          else "Stale Incomplete Download")]
        else junk_files s in
      if size attributes >=? min_duplicate_size then
        let sample := size attributes >? 10 * 1024 * 1024 in
        let file_hash := compute_file_hash w full_path default_block_size sample in
        let env := mkEnv (ticks env) (calls env ++ [CallHash full_path sample]) in
        let file_hashes :=
          match file_hash with
          | Some h =>
              if PyStr.truthy h then hashes_append h full_path (file_hashes s)
              else file_hashes s
          | None => file_hashes s
          end in
        mkScan oversized_files old_files junk_files file_hashes (scan_errors s) env
      else
        mkScan oversized_files old_files junk_files (file_hashes s) (scan_errors s) env
  end.

(** [for filename in filenames: ...] *)
Definition scan_dir (w : World)
    (min_duplicate_size months oversized_threshold download_stale_secs : Z)
    (s : ScanState) (entry : string * list string * list string) : ScanState :=
  let '(dirpath, _, filenames) := entry in
  fold_left
    (fun s filename =>
       process_file w min_duplicate_size months oversized_threshold
                    download_stale_secs dirpath filename s)
    filenames s.

(** What [analyze_files] returns: the tuple of four empty lists of the
    early return, or the five components of a completed scan. *)
Inductive AnalysisResult :=
| EmptyLists4
| Report (oversized_files : list (string * Z))
         (old_files : list (string * Z * Z))
         (junk_files : list (string * string))
         (duplicates : gmap string (list string))
         (scan_errors : list string).

(** [{h: paths for h, paths in file_hashes.items() if len(paths) > 1}] *)
Definition duplicates_of (file_hashes : gmap string (list string))
  : gmap string (list string) :=
  filter (fun kv => (1 < length (snd kv))%nat) file_hashes.

(** The state in which the traversal of a validated, non-empty [root] ends. *)
Definition scan_all (w : World) (root : string)
    (min_duplicate_size months oversized_threshold download_stale_secs : Z)
  : ScanState :=
  fold_left
    (scan_dir w min_duplicate_size months oversized_threshold download_stale_secs)
    (w_walk w root) scan0.

(** The result comes with the effects of the call. *)
Definition analyze_files (w : World) (root : option string)
    (min_duplicate_size months oversized_threshold download_stale_secs : Z)
  : AnalysisResult * Env :=
  match validate_directory_path w root with
  | None => (EmptyLists4, env0)
  | Some root =>
      if negb (PyStr.truthy root) then (EmptyLists4, env0)
      else
        let s := scan_all w root min_duplicate_size months oversized_threshold
                          download_stale_secs in
        (Report (oversized_files s) (old_files s) (junk_files s)
                (duplicates_of (file_hashes s)) (scan_errors s),
         scan_env s)
  end.

(** [len(result)] *)
Definition arity (r : AnalysisResult) : nat :=
  match r with
  | EmptyLists4 => 4
  | Report _ _ _ _ _ => 5
  end.

(** The five-target assignment
    [oversized_files, old_files, junk_files, duplicates, scan_errors = r]
    of the callers; [None] is the [ValueError] of a tuple of another
    length. *)
Definition unpack5 (r : AnalysisResult)
  : option (list (string * Z) * list (string * Z * Z) * list (string * string)
            * gmap string (list string) * list string) :=
  match r with
  | Report a b c d e => Some (a, b, c, d, e)
  | EmptyLists4 => None
  end.

(** ** Notions used to state the properties *)

(** The [(dirpath, filename)] pairs in the order in which the two nested
    loops visit them. *)
Definition walk_files (w : World) (root : string) : list (string * string) :=
  flat_map (fun entry => let '(dirpath, _, filenames) := entry in
                         map (pair dirpath) filenames)
           (w_walk w root).

Definition full_path (visit : string * string) : string :=
  OsPath.join (fst visit) (snd visit).

(** The loop body iterated over a list of visits. *)
Definition scan_files (w : World)
    (min_duplicate_size months oversized_threshold download_stale_secs : Z)
    (visits : list (string * string)) (s : ScanState) : ScanState :=
  fold_left
    (fun s visit =>
       process_file w min_duplicate_size months oversized_threshold
                    download_stale_secs (fst visit) (snd visit) s)
    visits s.

(** [root] passes the two tests at the head of [analyze_files] and the
    traversal runs over [r]. *)
Definition accepted_root (w : World) (root : option string) (r : string) : Prop :=
  validate_directory_path w root = Some r /\ PyStr.truthy r = true.

Definition root_rejected (w : World) (root : option string) : bool :=
  match validate_directory_path w root with
  | None => true
  | Some r => negb (PyStr.truthy r)
  end.

(** The extension of [filename] as [analyze_files] computes it. *)
Definition ext_of (filename : string) : string :=
  PyStr.lower (snd (OsPath.splitext filename)).

(** The four naming tests of the [elif] in [analyze_files]. *)
Definition matches_junk_pattern (filename : string) : bool :=
  let name_lower := PyStr.lower filename in
  let ext := PyStr.lower (snd (OsPath.splitext filename)) in
  PyStr.mem ext junk_file_patterns.ext
  || PyStr.startswith_any name_lower junk_file_patterns.prefix
  || PyStr.endswith_any name_lower junk_file_patterns.suffix
  || PyStr.mem name_lower junk_file_patterns.exact.

Definition ten_MiB : Z := 10 * 1024 * 1024.

(** The key under which a visit of [path] is filed in [file_hashes] once
    its attributes are obtained, if it is filed at all (see
    [filed_under]). *)
Definition fingerprint (w : World) (min_duplicate_size : Z) (path : string)
  : option string :=
  match w_stat w path with
  | Some st =>
      if st_size st >=? min_duplicate_size then
        match compute_file_hash w path default_block_size (st_size st >? ten_MiB) with
        | Some h => if PyStr.truthy h then Some h else None
        | None => None
        end
      else None
  | None => None
  end.

Definition has_fingerprint (w : World) (min_duplicate_size : Z) (h : string)
    (path : string) : bool :=
  match fingerprint w min_duplicate_size path with
  | Some h' => String.eqb h' h
  | None => false
  end.

Definition report_junk (r : AnalysisResult) : list (string * string) :=
  match r with Report _ _ junk _ _ => junk | EmptyLists4 => [] end.
Definition report_old (r : AnalysisResult) : list (string * Z * Z) :=
  match r with Report _ old _ _ _ => old | EmptyLists4 => [] end.
Definition report_duplicates (r : AnalysisResult) : gmap string (list string) :=
  match r with Report _ _ _ d _ => d | EmptyLists4 => ∅ end.
Definition report_errors (r : AnalysisResult) : list string :=
  match r with Report _ _ _ _ e => e | EmptyLists4 => [] end.

(** What [os.stat] returned for [path], when [get_file_attributes] returns
    attributes for it: [os.stat] succeeds and the age threshold of [months]
    can be computed. *)
Definition metadata (w : World) (months : Z) (path : string) : option stat_result :=
  if float_overflow (months * 30 * 24 * 3600) then None else w_stat w path.

(** [path] is filed under [h] when its attributes are obtained and [h] is
    its fingerprint. *)
Definition filed_under (w : World) (months min_duplicate_size : Z) (h : string)
    (path : string) : bool :=
  negb (float_overflow (months * 30 * 24 * 3600))
  && has_fingerprint w min_duplicate_size h path.

(** The calls of one visit: the metadata read, then the hashing when
    attributes are obtained and the size reaches [min_duplicate_size]. *)
Definition calls_of_visit (w : World) (months min_duplicate_size : Z) (path : string)
  : list Call :=
  CallStat path ::
  match metadata w months path with
  | Some st =>
      if st_size st >=? min_duplicate_size
      then [CallHash path (st_size st >? ten_MiB)] else []
  | None => []
  end.

(** [file_hashes[h]] read without inserting: the empty list for a missing key. *)
Definition bucket (h : string) (file_hashes : gmap string (list string)) : list string :=
  default [] (file_hashes !! h).

Definition no_empty_bucket (file_hashes : gmap string (list string)) : Prop :=
  forall h paths, file_hashes !! h = Some paths -> paths <> [].

(** ** Further notions *)

Definition report_oversized (r : AnalysisResult) : list (string * Z) :=
  match r with Report oversized _ _ _ _ => oversized | EmptyLists4 => [] end.

(** The entry that a visit of [path] adds to the oversized list. *)
Definition oversized_of_visit (w : World) (months oversized_threshold : Z)
    (path : string) : list (string * Z) :=
  match metadata w months path with
  | Some st => if st_size st >? oversized_threshold then [(path, st_size st)] else []
  | None => []
  end.

(** The clock readings that a visit of [path] consumes: one for the age
    threshold when [os.stat] succeeds, one more for a path with a download
    suffix when the threshold could be computed. *)
Definition ticks_of_visit (w : World) (months : Z) (path : string) : nat :=
  match w_stat w path with
  | Some _ =>
      if float_overflow (months * 30 * 24 * 3600) then 1
      else if PyStr.endswith_any path [".crdownload"; ".part"] then 2 else 1
  | None => 0
  end.

(** The message that a visit of [path] adds to the error list. *)
Definition error_of_visit (w : World) (months : Z) (path : string) : list string :=
  match metadata w months path with
  | Some _ => []
  | None => ["Error accessing " +:+ path]
  end.

(** [c in s] for a character *)
Fixpoint has_char (c : ascii) (s : string) : bool :=
  match s with
  | EmptyString => false
  | String a s' => Ascii.eqb a c || has_char c s'
  end.

(** ** [confirm_action] *)

(** [c.isspace()] for an ASCII character: tab to carriage return, the four
    separators 0x1c to 0x1f, and the space.  Python's [str.strip] also
    removes the white space beyond ASCII (U+0085, U+00A0 and others): what
    is proved of [strip] for every line is proved for the ASCII lines. *)
Definition is_space (c : ascii) : bool :=
  let n := nat_of_ascii c in
  ((9 <=? n) && (n <=? 13))%nat || ((28 <=? n) && (n <=? 32))%nat.

(** Every character of [s] is an ASCII character. *)
Fixpoint is_ascii (s : string) : bool :=
  match s with
  | EmptyString => true
  | String c s' => (nat_of_ascii c <? 128)%nat && is_ascii s'
  end.

Fixpoint all_space (s : string) : bool :=
  match s with
  | EmptyString => true
  | String c s' => is_space c && all_space s'
  end.

(** [s.lstrip()], [s.rstrip()] and [s.strip()] *)
Fixpoint lstrip (s : string) : string :=
  match s with
  | EmptyString => EmptyString
  | String c s' => if is_space c then lstrip s' else s
  end.

Fixpoint rstrip (s : string) : string :=
  match s with
  | EmptyString => EmptyString
  | String c s' =>
      match rstrip s' with
      | EmptyString => if is_space c then EmptyString else String c EmptyString
      | String _ _ as t => String c t
      end
  end.

Definition strip (s : string) : string := rstrip (lstrip s).

(** [typed] is what [input] returns, [None] when it raises ([EOFError]);
    the exception is not caught.  The prompt only goes to the screen; the
    callers' prompts are written here without their pictographs. *)
Definition confirm_action (prompt : string) (typed : option string) : option bool :=
  match typed with
  | Some line => let answer := PyStr.lower (strip line) in Some (String.eqb answer "y")
  | None => None
  end.

(** ** [execute_system_command] and [clean_system_packages_and_logs] *)

(** How [subprocess.run(cmd, check=True, ...)] ends: normally, with
    [CalledProcessError] (a non-zero exit status), or with another
    exception (the program cannot be started, say). *)
Inductive RunResult := RunOk | RunCalledProcessError | RunOtherError.

(** The function returns [True] or [False]; [None] stands for an exception
    that it does not catch.  The second component is the list of the
    commands handed to [subprocess.run] so far. *)
Definition execute_system_command (run : list string -> RunResult)
    (cmd : list string) (ran : list (list string))
  : option bool * list (list string) :=
  match run cmd with
  | RunOk => (Some true, ran ++ [cmd])
  | RunCalledProcessError => (Some false, ran ++ [cmd])
  | RunOtherError => (None, ran ++ [cmd])
  end.

Definition system_commands : list (list string) :=
  [ ["sudo"; "apt"; "autoremove"; "-y"];
    ["sudo"; "apt"; "autoclean"];
    ["sudo"; "apt"; "clean"];
    ["sudo"; "journalctl"; "--vacuum-time=7d"] ].

(** [for cmd in commands: execute_system_command(cmd)]: the value returned
    is ignored, an exception ends the loop. *)
Fixpoint run_commands (run : list string -> RunResult) (commands : list (list string))
    (ran : list (list string)) : bool * list (list string) :=
  match commands with
  | [] => (true, ran)
  | cmd :: commands' =>
      match execute_system_command run cmd ran with
      | (Some _, ran') => run_commands run commands' ran'
      | (None, ran') => (false, ran')
      end
  end.

Inductive SystemCleanup :=
| SystemCancelled          (* "Cancelled system cleanup." *)
| SystemDone               (* the loop ran to its end *)
| SystemRaised.            (* an exception left the function *)

Definition clean_system_packages_and_logs (run : list string -> RunResult)
    (typed : option string) : SystemCleanup * list (list string) :=
  match confirm_action "This will run 'sudo apt clean', 'journalctl --vacuum', etc. Continue?"
                       typed with
  | None => (SystemRaised, [])
  | Some false => (SystemCancelled, [])
  | Some true =>
      match run_commands run system_commands [] with
      | (true, ran) => (SystemDone, ran)
      | (false, ran) => (SystemRaised, ran)
      end
  end.

(** ** [empty_trash_directory] and [clean_user_and_browser_caches] *)

(** What the two deleting functions see beyond [World]: the bottom-up walk,
    the home directories, the glob of the browser caches, the modification
    times, and which files the process may unlink.  The files that exist
    are a finite set, the state that [os.remove] changes. *)
Record CleanupWorld := mkCleanupWorld {
  cw_base : World;
  cw_walk_bottom_up : string -> list (string * list string * list string);
                                  (* os.walk(path, topdown=False) *)
  cw_home : option (list string); (* the directories of /home; None: iterdir raises *)
  cw_rglob : string -> string -> list string;   (* Path(home).rglob(pattern) *)
  cw_getmtime : string -> option Z;             (* os.path.getmtime *)
  cw_removable : string -> bool                 (* os.remove is permitted *)
}.

(** [os.remove(path)]: it succeeds on a file that exists and that the
    process may unlink, and raises otherwise ([None]). *)
Definition os_remove (cw : CleanupWorld) (path : string) (files : gset string)
  : option (gset string) :=
  if bool_decide (path ∈ files) && cw_removable cw path
  then Some (files ∖ {[path]}) else None.

(** The paths of the files that a walk yields. *)
Definition walked_files (walk : list (string * list string * list string))
  : list string :=
  flat_map (fun entry => let '(root, _, files) := entry in
                         map (OsPath.join root) files) walk.

Inductive TrashResult :=
| TrashNoDirectory         (* "Trash directory does not exist." *)
| TrashAlreadyEmpty        (* "Trash directory is empty." *)
| TrashDryRun (n : nat)    (* "Dry run: Would delete n files from trash." *)
| TrashDeclined            (* the confirmation was not given *)
| TrashEmptied             (* "Emptied system trash folder" *)
| TrashRaised.             (* [input] raised *)

(** [try: os.remove(file_path) ... except Exception: ...] *)
Definition trash_remove (cw : CleanupWorld) (files : gset string) (file_path : string)
  : gset string :=
  match os_remove cw file_path files with
  | Some files' => files'
  | None => files
  end.

Definition empty_trash_directory (cw : CleanupWorld) (dry_run : bool)
    (typed : option string) (files : gset string) : TrashResult * gset string :=
  let trash_path := w_expanduser (cw_base cw) "~/.local/share/Trash/files" in
  if negb (w_exists (cw_base cw) trash_path) then (TrashNoDirectory, files)
  else
    let files_to_delete := walked_files (cw_walk_bottom_up cw trash_path) in
    match files_to_delete with
    | [] => (TrashAlreadyEmpty, files)
    | _ :: _ =>
        if dry_run then (TrashDryRun (length files_to_delete), files)
        else
          match confirm_action
                  ("Delete " +:+ pretty (length files_to_delete) +:+ " files from trash?")
                  typed with
          | None => (TrashRaised, files)
          | Some true => (TrashEmptied, fold_left (trash_remove cw) files_to_delete files)
          | Some false => (TrashDeclined, files)
          end
    end.

Definition browser_cache_patterns : list string :=
  [ ".mozilla/firefox/*/cache2";
    ".config/google-chrome/Default/Cache";
    ".config/chromium/Default/Cache";
    ".config/microsoft-edge/Default/Cache";
    ".config/BraveSoftware/Brave-Browser/Default/Cache" ].

(** The directories to clean, each with its age threshold in days. *)
Definition cache_directories (cw : CleanupWorld) (users : list string)
  : list (string * Z) :=
  [("~/.cache/thumbnails", 0)]
  ++ flat_map
       (fun user_home =>
          [ (user_home +:+ "/.cache/pip", 30);
            (user_home +:+ "/.npm", 30);
            (user_home +:+ "/.composer/cache", 30);
            (user_home +:+ "/.cache", 30);
            (user_home +:+ "/.local/share/Trash", 0);
            (user_home +:+ "/.thumbnails", 30) ]
          ++ flat_map (fun pattern => map (fun path => (path, 0))
                                          (cw_rglob cw user_home pattern))
                      browser_cache_patterns)
       users.

(** The test of one file: [days == 0 or (time.time() - getmtime(p)) > days * 86400],
    under [try ... except Exception: continue].  The clock is read only
    when [days] is not 0, and before the modification time. *)
Definition cache_file_step (cw : CleanupWorld) (days : Z)
    (acc : list string * nat) (full_path : string) : list string * nat :=
  let '(files_to_delete, ticks) := acc in
  if days =? 0 then (files_to_delete ++ [full_path], ticks)
  else
    let now := w_time (cw_base cw) ticks in
    match cw_getmtime cw full_path with
    | Some mtime =>
        if now - mtime >? days * 86400
        then (files_to_delete ++ [full_path], S ticks)
        else (files_to_delete, S ticks)
    | None => (files_to_delete, S ticks)
    end.

Definition cache_directory_step (cw : CleanupWorld) (acc : list string * nat)
    (entry : string * Z) : list string * nat :=
  let '(dir_path, days) := entry in
  let abs_path := w_expanduser (cw_base cw) dir_path in
  if w_exists (cw_base cw) abs_path
  then fold_left (cache_file_step cw days)
                 (walked_files (w_walk (cw_base cw) abs_path)) acc
  else acc.

Definition cache_files_to_delete (cw : CleanupWorld) (users : list string)
  : list string * nat :=
  fold_left (cache_directory_step cw) (cache_directories cw users) ([], O).

Inductive CacheResult :=
| CacheNothing             (* "No cache files to clean." *)
| CacheDryRun (n : nat)    (* "Dry run: Would delete n cache files." *)
| CacheDeclined
| CacheCleaned (cleaned : nat)   (* "Cleaned n cache files." *)
| CacheRaised.             (* [iterdir] or [input] raised *)

(** The deleting loop with its counter. *)
Definition cache_remove (cw : CleanupWorld) (acc : gset string * nat)
    (file_path : string) : gset string * nat :=
  let '(files, cleaned) := acc in
  match os_remove cw file_path files with
  | Some files' => (files', S cleaned)
  | None => (files, cleaned)
  end.

Definition clean_user_and_browser_caches (cw : CleanupWorld) (dry_run : bool)
    (typed : option string) (files : gset string) : CacheResult * gset string :=
  match cw_home cw with
  | None => (CacheRaised, files)
  | Some users =>
      let files_to_delete := fst (cache_files_to_delete cw users) in
      match files_to_delete with
      | [] => (CacheNothing, files)
      | _ :: _ =>
          if dry_run then (CacheDryRun (length files_to_delete), files)
          else
            match confirm_action
                    ("Delete " +:+ pretty (length files_to_delete) +:+ " cache files?")
                    typed with
            | None => (CacheRaised, files)
            | Some true =>
                let '(files', cleaned) :=
                  fold_left (cache_remove cw) files_to_delete (files, O) in
                (CacheCleaned cleaned, files')
            | Some false => (CacheDeclined, files)
            end
      end
  end.

(** The clock readings consumed by the files of [directories]: one per
    file found in an existing directory that has an age limit. *)
Fixpoint cache_readings (cw : CleanupWorld) (directories : list (string * Z)) : nat :=
  match directories with
  | [] => O
  | (dir_path, days) :: directories' =>
      let abs_path := w_expanduser (cw_base cw) dir_path in
      ((if w_exists (cw_base cw) abs_path && negb (days =? 0)%Z
        then length (walked_files (w_walk (cw_base cw) abs_path)) else O)
       + cache_readings cw directories')%nat
  end.

(** The age test of a file, when the clock is at its reading number
    [reading]: no limit, or a readable modification time that lies more
    than [days * 86400] before that reading. *)
Definition cache_aged (cw : CleanupWorld) (days : Z) (reading : nat) (path : string)
  : Prop :=
  days = 0
  \/ exists mtime,
       cw_getmtime cw path = Some mtime
       /\ w_time (cw_base cw) reading - mtime > days * 86400.

(** Why a file is on the list of cache files: it was found in the walk of
    an existing directory of the list, and it passed the age test at the
    clock reading taken for it.  That reading is the one that follows the
    readings of the files examined before it: those of the directories
    [dpre] and the files [fpre] of its own directory. *)
Definition cache_reason (cw : CleanupWorld) (directories : list (string * Z))
    (path : string) : Prop :=
  exists dpre dir_path days dpost fpre fpost,
    directories = dpre ++ (dir_path, days) :: dpost
    /\ w_exists (cw_base cw) (w_expanduser (cw_base cw) dir_path) = true
    /\ walked_files (w_walk (cw_base cw) (w_expanduser (cw_base cw) dir_path))
       = fpre ++ path :: fpost
    /\ cache_aged cw days (cache_readings cw dpre + length fpre) path.

(** ** [format_file_size] *)

(** The value being formatted is the rational [num / den], [den] a power of
    1024.  For a size below 2^53 in absolute value this is what the floats
    of the source hold: the integer converts exactly, and a division by
    1024 only changes the exponent. *)

(** [n / d] rounded to the nearest integer, ties to the even one: the
    rounding of the format [.2f]. *)
Definition round_half_even (n d : Z) : Z :=
  let q := n / d in
  let r := n mod d in
  if (2 * r >? d) || ((2 * r =? d) && Z.odd q) then q + 1 else q.

Definition hundredths (num den : Z) : Z := round_half_even (100 * num) den.

(** [f"{x:.2f}"] for [x = num / den], which is an integer when negative. *)
Definition format_2f (num den : Z) : string :=
  let h := hundredths num den in
  pretty (h / 100) +:+ "." +:+ pretty (h mod 100 / 10) +:+ pretty (h mod 10).

(** The loop over the units, [size /= 1024] multiplying the denominator. *)
Fixpoint format_units (units : list string) (num den : Z) : string :=
  match units with
  | [] => format_2f num den +:+ " TB"
  | unit :: units' =>
      if num <? 1024 * den then format_2f num den +:+ " " +:+ unit
      else format_units units' num (den * 1024)
  end.

Definition format_file_size (size : Z) : string :=
  format_units ["B"; "KB"; "MB"; "GB"] size 1.

(** ** [main]: the analysis and the order of the cleanups *)









(** ** Example environments *)

(** Lookup in a table keyed by path. *)
Fixpoint table_get {A : Type} (path : string) (table : list (string * A)) : option A :=
  match table with
  | [] => None
  | (p, x) :: table' => if String.eqb p path then Some x else table_get path table'
  end.

(** A directory [/data] with one subdirectory.  [gone] disappears before
    its metadata is read; [locked.bin] cannot be opened.  The clock starts
    at 20000000 and advances by one unit per reading. *)
Definition example_stats : list (string * stat_result) :=
  [ ("/data/empty.part", mkStat 0 19999000 19000000);
    ("/data/a.txt", mkStat 3 1000 1000);
    ("/data/b.txt", mkStat 3 19999000 1000);
    ("/data/partial.crdownload", mkStat 5 19999000 19992800);
    ("/data/fresh.part", mkStat 5 19999000 19999900);
    ("/data/notes.old", mkStat 4 19999000 19999000);
    ("/data/sub/.part", mkStat 5 19999000 19000000);
    ("/data/sub/X.PART", mkStat 5 19999000 19000000);
    ("/data/sub/locked.bin", mkStat 4096 19999000 19999000);
    ("/data/sub/readme.md", mkStat 7 19999000 19999000) ].

Definition example_contents : list (string * list Byte.byte) :=
  [ ("/data/empty.part", []);
    ("/data/a.txt", list_byte_of_string "abc");
    ("/data/b.txt", list_byte_of_string "abc");
    ("/data/partial.crdownload", list_byte_of_string "hello");
    ("/data/fresh.part", list_byte_of_string "world");
    ("/data/notes.old", list_byte_of_string "note");
    ("/data/sub/.part", list_byte_of_string "12345");
    ("/data/sub/X.PART", list_byte_of_string "54321");
    ("/data/sub/readme.md", list_byte_of_string "read me") ].

Definition example_world : World :=
  {| w_expanduser := fun path => path;
     w_exists := fun path => PyStr.mem path ["/data"; "/data/sub"];
     w_isdir := fun path => PyStr.mem path ["/data"; "/data/sub"];
     w_walk := fun root =>
       [ (root, ["sub"],
          ["empty.part"; "a.txt"; "b.txt"; "partial.crdownload"; "fresh.part";
           "notes.old"; "gone"]);
         (OsPath.join root "sub", [],
          [".part"; "X.PART"; "locked.bin"; "readme.md"]) ];
     w_stat := fun path => table_get path example_stats;
     w_open := fun path => table_get path example_contents;
     w_time := fun n => 20000000 + Z.of_nat n |}.

(** A directory whose only file can be read by [os.stat] but not opened. *)
Definition unreadable_world : World :=
  {| w_expanduser := fun path => path;
     w_exists := fun path => String.eqb path "/data";
     w_isdir := fun path => String.eqb path "/data";
     w_walk := fun root => [ (root, [], ["locked.bin"]) ];
     w_stat := fun path =>
       table_get path [("/data/locked.bin", mkStat 4096 19999000 19999000)];
     w_open := fun _ => None;
     w_time := fun n => 20000000 + Z.of_nat n |}.

(** Two files of 10 MiB + 1 bytes that differ in their last byte only. *)
Definition big_zeros : list Byte.byte := repeat Byte.x00 (Z.to_nat ten_MiB).
Definition big_a : list Byte.byte := big_zeros ++ [Byte.x01].
Definition big_b : list Byte.byte := big_zeros ++ [Byte.x02].

Definition big_world : World :=
  {| w_expanduser := fun path => path;
     w_exists := fun path => String.eqb path "/big";
     w_isdir := fun path => String.eqb path "/big";
     w_walk := fun root => [ (root, [], ["a.bin"; "b.bin"]) ];
     w_stat := fun path =>
       table_get path [ ("/big/a.bin", mkStat (ten_MiB + 1) 19999000 19999000);
                        ("/big/b.bin", mkStat (ten_MiB + 1) 19999000 19999000) ];
     w_open := fun path => table_get path [ ("/big/a.bin", big_a); ("/big/b.bin", big_b) ];
     w_time := fun n => 20000000 + Z.of_nat n |}.

(** ** Further example environments *)

(** [head.bin] holds the first MiB of [a.bin], a file of 10 MiB + 1 bytes. *)
Definition prefix_world : World :=
  {| w_expanduser := fun path => path;
     w_exists := fun path => String.eqb path "/big";
     w_isdir := fun path => String.eqb path "/big";
     w_walk := fun root => [ (root, [], ["head.bin"; "a.bin"]) ];
     w_stat := fun path =>
       table_get path [ ("/big/head.bin", mkStat (1024 * 1024) 19999000 19999000);
                        ("/big/a.bin", mkStat (ten_MiB + 1) 19999000 19999000) ];
     w_open := fun path =>
       table_get path [ ("/big/head.bin", firstn sample_bytes big_a);
                        ("/big/a.bin", big_a) ];
     w_time := fun n => 20000000 + Z.of_nat n |}.

(** The home of one user: a trash with three files, one of which cannot be
    removed, and a cache whose thumbnails directory is reached twice, once
    by itself and once through the walk of [.cache]. *)
Definition example_cleanup : CleanupWorld :=
  {| cw_base :=
       {| w_expanduser := fun path =>
            match path with
            | String "~" rest => "/home/ann" +:+ rest
            | _ => path
            end;
          w_exists := fun path =>
            PyStr.mem path [ "/home/ann/.local/share/Trash/files";
                             "/home/ann/.cache"; "/home/ann/.cache/thumbnails" ];
          w_isdir := fun path =>
            PyStr.mem path [ "/home/ann/.local/share/Trash/files";
                             "/home/ann/.cache"; "/home/ann/.cache/thumbnails" ];
          w_walk := fun root =>
            if String.eqb root "/home/ann/.cache"
            then [ ("/home/ann/.cache", ["thumbnails"], ["old.bin"; "new.bin"]);
                   ("/home/ann/.cache/thumbnails", [], ["t1.png"]) ]
            else if String.eqb root "/home/ann/.cache/thumbnails"
            then [ ("/home/ann/.cache/thumbnails", [], ["t1.png"]) ]
            else [];
          w_stat := fun _ => None;
          w_open := fun _ => None;
          w_time := fun n => 20000000 + Z.of_nat n |};
     cw_walk_bottom_up := fun root =>
       if String.eqb root "/home/ann/.local/share/Trash/files"
       then [ ("/home/ann/.local/share/Trash/files/dir", [], ["inner.txt"]);
              ("/home/ann/.local/share/Trash/files", ["dir"], ["a.doc"; "b.doc"]) ]
       else [];
     cw_home := Some ["/home/ann"];
     cw_rglob := fun _ _ => [];
     cw_getmtime := fun path =>
       table_get path [ ("/home/ann/.cache/old.bin", 1000);
                        ("/home/ann/.cache/new.bin", 19999000);
                        ("/home/ann/.cache/thumbnails/t1.png", 1000) ];
     cw_removable := fun path =>
       negb (String.eqb path "/home/ann/.local/share/Trash/files/b.doc") |}.

Definition example_files : gset string :=
  list_to_set
    [ "/home/ann/notes.txt";
      "/home/ann/.local/share/Trash/files/dir/inner.txt";
      "/home/ann/.local/share/Trash/files/a.doc";
      "/home/ann/.local/share/Trash/files/b.doc";
      "/home/ann/.cache/old.bin";
      "/home/ann/.cache/new.bin";
      "/home/ann/.cache/thumbnails/t1.png" ].

(** The example home with a clock that jumps after its first reading. *)
Definition late_cleanup : CleanupWorld :=
  let base := cw_base example_cleanup in
  mkCleanupWorld
    (mkWorld (w_expanduser base) (w_exists base) (w_isdir base) (w_walk base)
             (w_stat base) (w_open base)
             (fun n => match n with O => 20000000 | S _ => 30000000 end))
    (cw_walk_bottom_up example_cleanup) (cw_home example_cleanup)
    (cw_rglob example_cleanup) (cw_getmtime example_cleanup)
    (cw_removable example_cleanup).

(** ** Sanity checks of the library models *)

Example splitext_plain : OsPath.splitext "movie.Part" = ("movie", ".Part").
Proof. reflexivity. Qed.
Example splitext_dotfile : OsPath.splitext ".trash" = (".trash", EmptyString).
Proof. reflexivity. Qed.
Example splitext_two_dots : OsPath.splitext "..a.b.c" = ("..a.b", ".c").
Proof. reflexivity. Qed.
Example splitext_dir_dot : OsPath.splitext "a.b/c" = ("a.b/c", EmptyString).
Proof. reflexivity. Qed.
Example join_plain : OsPath.join "/srv/data" "a.txt" = "/srv/data/a.txt".
Proof. reflexivity. Qed.
Example join_slash : OsPath.join "/" "a.txt" = "/a.txt".
Proof. reflexivity. Qed.
Example lower_mixed : PyStr.lower "Core.DUMP-1" = "core.dump-1".
Proof. reflexivity. Qed.
Example endswith_yes : PyStr.endswith "x.crdownload" ".crdownload" = true.
Proof. reflexivity. Qed.
Example endswith_short : PyStr.endswith "art" ".part" = false.
Proof. reflexivity. Qed.
Example sha256_first_round_constant : nth 0 SHA256.K 0 = 0x428a2f98.
Proof. reflexivity. Qed.
Example sha256_last_round_constant : nth 63 SHA256.K 0 = 0xc67178f2.
Proof. reflexivity. Qed.
Example sha256_initial_value : SHA256.ha SHA256.H0 = 0x6a09e667.
Proof. reflexivity. Qed.
Example sha256_empty :
  SHA256.hexdigest [] =
  "e3b0c44298fc1c149afbf4c8996fb92427ae41e4649b934ca495991b7852b855".
Proof. vm_compute. reflexivity. Qed.
Example sha256_abc :
  SHA256.hexdigest (list_byte_of_string "abc") =
  "ba7816bf8f01cfea414140de5dae2223b00361a396177a9cb410ff61f20015ad".
Proof. vm_compute. reflexivity. Qed.
Example sha256_two_blocks :
  SHA256.hexdigest
    (list_byte_of_string "abcdbcdecdefdefgefghfghighijhijkijkljklmklmnlmnomnopnopq") =
  "248d6a61d20638b8e5c026930c3e6039a33ce45964ff2167f6ecedd419db06c1".
Proof. vm_compute. reflexivity. Qed.

(** ** Strings and hashing *)

Lemma hexdigest_truthy (msg : list Byte.byte) :
  PyStr.truthy (SHA256.hexdigest msg) = true.
Proof. unfold SHA256.hexdigest, SHA256.hex8. reflexivity. Qed.

Lemma default_block_size_pos : exists n, default_block_size = S n.
Proof.
  exists (Nat.pred default_block_size).
  assert (0 < default_block_size)%nat by (unfold default_block_size; lia).
  lia.
Qed.

Lemma sample_bytes_eq : sample_bytes = Z.to_nat (1024 * 1024).
Proof. reflexivity. Qed.

Lemma length_big_zeros : length big_zeros = Z.to_nat ten_MiB.
Proof. apply repeat_length. Qed.

#[global] Opaque sample_bytes default_block_size big_zeros.

(** The block loop feeds the whole file to the hasher, whatever the
    positive block size. *)
Lemma read_blocks_all (n : nat) (f hasher : list Byte.byte) :
  read_blocks (S n) f hasher = hasher ++ f.
Proof.
  remember (length f) as k eqn:Hk.
  revert f hasher Hk.
  induction k as [k IH] using lt_wf_ind; intros f hasher Hk.
  destruct f as [|b f].
  - simp read_blocks. now rewrite app_nil_r.
  - simp read_blocks. unfold file_read, hasher_update; cbn [fst snd].
    rewrite (IH (length (skipn (S n) (b :: f)))); [| subst k; rewrite length_drop; simpl; lia | reflexivity].
    rewrite <- app_assoc. f_equal. apply take_drop.
Qed.

Lemma compute_file_hash_full (w : World) (path : string) (f : list Byte.byte) :
  w_open w path = Some f ->
  compute_file_hash w path default_block_size false = Some (SHA256.hexdigest f).
Proof.
  intros Hopen. unfold compute_file_hash. rewrite Hopen.
  destruct default_block_size_pos as [n ->].
  now rewrite read_blocks_all.
Qed.

Lemma compute_file_hash_sample (w : World) (path : string) (f : list Byte.byte) :
  w_open w path = Some f ->
  compute_file_hash w path default_block_size true
  = Some (SHA256.hexdigest (firstn sample_bytes f)).
Proof.
  intros Hopen. unfold compute_file_hash. now rewrite Hopen.
Qed.

Lemma compute_file_hash_unreadable (w : World) (path : string) (bs : nat) (sample : bool) :
  w_open w path = None -> compute_file_hash w path bs sample = None.
Proof. intros Hopen. unfold compute_file_hash. now rewrite Hopen. Qed.

Lemma compute_file_hash_truthy (w : World) (path : string) (bs : nat)
    (sample : bool) (h : string) :
  compute_file_hash w path bs sample = Some h -> PyStr.truthy h = true.
Proof.
  unfold compute_file_hash. destruct (w_open w path); [|discriminate].
  intros Hh. match type of Hh with Some ?d = _ => replace h with d by congruence end.
  apply hexdigest_truthy.
Qed.

(** [endswith] is the suffix test. *)

Lemma take_drop_string (i : nat) (s : string) :
  PyStr.take i s +:+ PyStr.drop i s = s.
Proof.
  revert s. induction i as [|i IH]; intros [|c s]; try reflexivity.
  cbn [PyStr.take PyStr.drop]. change (String c (PyStr.take i s) +:+ PyStr.drop i s)
    with (String c (PyStr.take i s +:+ PyStr.drop i s)).
  now rewrite IH.
Qed.

Lemma length_append_string (s1 s2 : string) :
  String.length (s1 +:+ s2) = (String.length s1 + String.length s2)%nat.
Proof.
  induction s1 as [|c s1 IH]; [reflexivity|].
  change (String c s1 +:+ s2) with (String c (s1 +:+ s2)).
  cbn [String.length]. now rewrite IH.
Qed.

Lemma drop_append_string (s1 s2 : string) :
  PyStr.drop (String.length s1) (s1 +:+ s2) = s2.
Proof.
  induction s1 as [|c s1 IH]; [now destruct s2|].
  change (String c s1 +:+ s2) with (String c (s1 +:+ s2)).
  cbn [String.length PyStr.drop]. exact IH.
Qed.

Lemma endswith_spec (s sfx : string) :
  PyStr.endswith s sfx = true <-> exists pre, s = pre +:+ sfx.
Proof.
  unfold PyStr.endswith. rewrite andb_true_iff, Nat.leb_le, String.eqb_eq. split.
  - intros [_ Hdrop]. exists (PyStr.take (String.length s - String.length sfx) s).
    remember (String.length s - String.length sfx)%nat as k.
    rewrite <- (take_drop_string k s) at 1. now rewrite Hdrop.
  - intros [pre ->]. rewrite length_append_string. split; [lia|].
    replace (String.length pre + String.length sfx - String.length sfx)%nat
      with (String.length pre) by lia.
    apply drop_append_string.
Qed.

(** ** A visit is identified by its path when the walk yields no path twice *)

Lemma split_unique {A B : Type} (f : A -> B) (pre pre' post post' : list A) (v v' : A) :
  List.NoDup (map f (pre ++ v :: post)) ->
  pre ++ v :: post = pre' ++ v' :: post' ->
  f v = f v' ->
  pre = pre' /\ v = v' /\ post = post'.
Proof.
  revert pre'. induction pre as [|x pre IH]; intros pre' Hnd Heq Hf.
  - destruct pre' as [|x' pre']; cbn in Heq.
    + injection Heq as -> ->. now repeat split.
    + injection Heq as -> ->. cbn in Hnd. apply List.NoDup_cons_iff in Hnd as [Hnotin _].
      exfalso. apply Hnotin. rewrite Hf. apply in_map, in_or_app. right. now left.
  - destruct pre' as [|x' pre']; cbn in Heq.
    + injection Heq as -> <-. cbn in Hnd. apply List.NoDup_cons_iff in Hnd as [Hnotin _].
      exfalso. apply Hnotin. rewrite <- Hf. apply in_map, in_or_app. right. now left.
    + injection Heq as -> Heq. cbn in Hnd. apply List.NoDup_cons_iff in Hnd as [_ Hnd].
      destruct (IH pre' Hnd Heq Hf) as (-> & -> & ->). now repeat split.
Qed.

(** ** The loop body, component by component *)

Section Scan.

Variable w : World.
Variables min_duplicate_size months oversized_threshold download_stale_secs : Z.

Local Abbreviation step :=
  (process_file w min_duplicate_size months oversized_threshold download_stale_secs).
Local Abbreviation scan :=
  (scan_files w min_duplicate_size months oversized_threshold download_stale_secs).
Local Abbreviation attributes_of path env :=
  (get_file_attributes w path months oversized_threshold download_stale_secs env).
Local Abbreviation overflow := (float_overflow (months * 30 * 24 * 3600)).

Lemma get_file_attributes_fail (path : string) (env : Env) :
  w_stat w path = None ->
  attributes_of path env = (None, mkEnv (ticks env) (calls env ++ [CallStat path])).
Proof. intros Hstat. unfold get_file_attributes. now rewrite Hstat. Qed.

(** The threshold cannot be computed: the clock has been read, the
    attributes are lost. *)
Lemma get_file_attributes_overflow (path : string) (env : Env) (st : stat_result) :
  w_stat w path = Some st ->
  overflow = true ->
  attributes_of path env
  = (None, mkEnv (S (ticks env)) (calls env ++ [CallStat path])).
Proof.
  intros Hstat Hov. unfold get_file_attributes. rewrite Hstat, Hov. reflexivity.
Qed.

Lemma get_file_attributes_stat (path : string) (env : Env) (st : stat_result) :
  w_stat w path = Some st ->
  overflow = false ->
  exists env',
    attributes_of path env
    = (Some (mkAttributes
               (st_size st) (st_size st >? oversized_threshold)
               ((st_atime st <? w_time w (ticks env) - months * 30 * 24 * 3600)
                && (st_mtime st <? w_time w (ticks env) - months * 30 * 24 * 3600))
               (PyStr.endswith_any path [".crdownload"; ".part"]
                && (w_time w (S (ticks env)) - st_mtime st >? download_stale_secs))
               (st_atime st) (st_mtime st)), env')
    /\ calls env' = calls env ++ [CallStat path].
Proof.
  intros Hstat Hov. unfold get_file_attributes. rewrite Hstat, Hov. cbn [ticks calls].
  destruct (PyStr.endswith_any path _); cbn [andb]; eexists; split; reflexivity.
Qed.

Lemma metadata_Some (path : string) (st : stat_result) :
  metadata w months path = Some st
  <-> w_stat w path = Some st /\ overflow = false.
Proof.
  unfold metadata. destruct overflow.
  - split; [discriminate | intros [_ H]; discriminate].
  - split; [intros H; split; [exact H | reflexivity] | intros [H _]; exact H].
Qed.

Lemma metadata_in_range (path : string) :
  overflow = false -> metadata w months path = w_stat w path.
Proof. intros Hov. unfold metadata. now rewrite Hov. Qed.

Lemma metadata_overflow (path : string) :
  overflow = true -> metadata w months path = None.
Proof. intros Hov. unfold metadata. now rewrite Hov. Qed.

Lemma get_file_attributes_metadata (path : string) (env : Env) (st : stat_result) :
  metadata w months path = Some st ->
  exists env',
    attributes_of path env
    = (Some (mkAttributes
               (st_size st) (st_size st >? oversized_threshold)
               ((st_atime st <? w_time w (ticks env) - months * 30 * 24 * 3600)
                && (st_mtime st <? w_time w (ticks env) - months * 30 * 24 * 3600))
               (PyStr.endswith_any path [".crdownload"; ".part"]
                && (w_time w (S (ticks env)) - st_mtime st >? download_stale_secs))
               (st_atime st) (st_mtime st)), env')
    /\ calls env' = calls env ++ [CallStat path].
Proof.
  intros Hm. apply metadata_Some in Hm as [Hstat Hov].
  exact (get_file_attributes_stat path env st Hstat Hov).
Qed.

Lemma get_file_attributes_none (path : string) (env : Env) :
  metadata w months path = None ->
  exists env',
    attributes_of path env = (None, env')
    /\ calls env' = calls env ++ [CallStat path].
Proof.
  intros Hm. destruct (w_stat w path) as [st|] eqn:Hstat.
  - destruct overflow eqn:Hov.
    + rewrite (get_file_attributes_overflow path env st Hstat Hov).
      eexists; split; reflexivity.
    + rewrite (metadata_in_range path Hov), Hstat in Hm. discriminate.
  - rewrite (get_file_attributes_fail path env Hstat). eexists; split; reflexivity.
Qed.

(** Attributes are returned only from a successful [os.stat] and a
    threshold that could be computed, and they are these. *)
Lemma get_file_attributes_eq (path : string) (env env' : Env) (a : Attributes) :
  attributes_of path env = (Some a, env') ->
  exists st,
    w_stat w path = Some st /\ overflow = false
    /\ a = mkAttributes
             (st_size st) (st_size st >? oversized_threshold)
             ((st_atime st <? w_time w (ticks env) - months * 30 * 24 * 3600)
              && (st_mtime st <? w_time w (ticks env) - months * 30 * 24 * 3600))
             (PyStr.endswith_any path [".crdownload"; ".part"]
              && (w_time w (S (ticks env)) - st_mtime st >? download_stale_secs))
             (st_atime st) (st_mtime st).
Proof.
  intros Ha. destruct (metadata w months path) as [st|] eqn:Hm.
  - destruct (get_file_attributes_metadata path env st Hm) as (e & He & _).
    apply metadata_Some in Hm as [Hstat Hov].
    exists st. split; [exact Hstat|]. split; [exact Hov|].
    rewrite He in Ha. congruence.
  - destruct (get_file_attributes_none path env Hm) as (e & He & _).
    rewrite He in Ha. discriminate.
Qed.

Lemma get_file_attributes_inv (path : string) (env env' : Env) (a : Attributes) :
  attributes_of path env = (Some a, env') ->
  exists st, w_stat w path = Some st /\ size a = st_size st
             /\ last_access a = st_atime st /\ last_mod a = st_mtime st.
Proof.
  intros Ha. destruct (get_file_attributes_eq path env env' a Ha) as (st & Hstat & _ & ->).
  exists st. repeat split; [exact Hstat].
Qed.

Lemma step_failed_stat (dirpath filename : string) (s : ScanState) :
  w_stat w (OsPath.join dirpath filename) = None ->
  step dirpath filename s
  = mkScan (oversized_files s) (old_files s) (junk_files s) (file_hashes s)
           (scan_errors s ++ ["Error accessing " +:+ OsPath.join dirpath filename])
           (mkEnv (ticks (scan_env s))
                  (calls (scan_env s) ++ [CallStat (OsPath.join dirpath filename)])).
Proof.
  intros Hstat. unfold process_file.
  now rewrite (get_file_attributes_fail _ _ Hstat).
Qed.

Lemma step_overflow (dirpath filename : string) (s : ScanState) (st : stat_result) :
  w_stat w (OsPath.join dirpath filename) = Some st ->
  overflow = true ->
  step dirpath filename s
  = mkScan (oversized_files s) (old_files s) (junk_files s) (file_hashes s)
           (scan_errors s ++ ["Error accessing " +:+ OsPath.join dirpath filename])
           (mkEnv (S (ticks (scan_env s)))
                  (calls (scan_env s) ++ [CallStat (OsPath.join dirpath filename)])).
Proof.
  intros Hstat Hov. unfold process_file.
  now rewrite (get_file_attributes_overflow _ _ _ Hstat Hov).
Qed.

(** A visit without attributes: the error message and the call are all it
    leaves. *)
Lemma step_failed (dirpath filename : string) (s : ScanState) :
  metadata w months (OsPath.join dirpath filename) = None ->
  exists env',
    step dirpath filename s
    = mkScan (oversized_files s) (old_files s) (junk_files s) (file_hashes s)
             (scan_errors s ++ ["Error accessing " +:+ OsPath.join dirpath filename])
             env'
    /\ calls env' = calls (scan_env s) ++ [CallStat (OsPath.join dirpath filename)].
Proof.
  intros Hm. unfold process_file.
  destruct (get_file_attributes_none _ (scan_env s) Hm) as (e & -> & Hc).
  exists e. split; [reflexivity | exact Hc].
Qed.

Lemma step_junk (dirpath filename : string) (s : ScanState) (a : Attributes) (e : Env) :
  attributes_of (OsPath.join dirpath filename) (scan_env s) = (Some a, e) ->
  junk_files (step dirpath filename s)
  = junk_files s ++
    (if size a =? 0 then [(OsPath.join dirpath filename, "Empty File")]
     else if matches_junk_pattern filename || is_stale_download a
          then [(OsPath.join dirpath filename,
                 if negb (is_stale_download a) then "Temporary File"
                 else "Stale Incomplete Download")]
          else []).
Proof.
  intros Ha. unfold process_file. rewrite Ha.
  fold (matches_junk_pattern filename).
  destruct (size a =? 0);
    [| destruct (matches_junk_pattern filename || is_stale_download a)];
    destruct (size a >=? min_duplicate_size); cbn [junk_files];
    rewrite ?app_nil_r; reflexivity.
Qed.

Lemma step_junk_failed (dirpath filename : string) (s : ScanState) (e : Env) :
  attributes_of (OsPath.join dirpath filename) (scan_env s) = (None, e) ->
  junk_files (step dirpath filename s) = junk_files s.
Proof. intros Ha. unfold process_file. now rewrite Ha. Qed.

Lemma step_old (dirpath filename : string) (s : ScanState) (a : Attributes) (e : Env) :
  attributes_of (OsPath.join dirpath filename) (scan_env s) = (Some a, e) ->
  old_files (step dirpath filename s)
  = old_files s ++
    (if is_old a
     then [(OsPath.join dirpath filename, last_access a, last_mod a)] else []).
Proof.
  intros Ha. unfold process_file. rewrite Ha.
  destruct (is_old a); destruct (size a >=? min_duplicate_size); cbn [old_files];
    rewrite ?app_nil_r; reflexivity.
Qed.

Lemma step_old_failed (dirpath filename : string) (s : ScanState) (e : Env) :
  attributes_of (OsPath.join dirpath filename) (scan_env s) = (None, e) ->
  old_files (step dirpath filename s) = old_files s.
Proof. intros Ha. unfold process_file. now rewrite Ha. Qed.

Lemma step_file_hashes (dirpath filename : string) (s : ScanState) :
  file_hashes (step dirpath filename s)
  = match (if overflow then None
           else fingerprint w min_duplicate_size (OsPath.join dirpath filename)) with
    | Some h => hashes_append h (OsPath.join dirpath filename) (file_hashes s)
    | None => file_hashes s
    end.
Proof.
  destruct (metadata w months (OsPath.join dirpath filename)) as [st|] eqn:Hm.
  - destruct (get_file_attributes_metadata _ (scan_env s) st Hm) as (e & He & _).
    apply metadata_Some in Hm as [Hstat Hov]. rewrite Hov.
    unfold fingerprint. rewrite Hstat.
    unfold process_file. rewrite He. cbn [size]. unfold ten_MiB.
    destruct (st_size st >=? min_duplicate_size); [|reflexivity].
    cbn [file_hashes].
    destruct (compute_file_hash w _ default_block_size _) as [h|]; [|reflexivity].
    destruct (PyStr.truthy h); reflexivity.
  - destruct (step_failed _ _ s Hm) as (e & -> & _). cbn [file_hashes].
    destruct overflow eqn:Hov; [reflexivity|].
    rewrite (metadata_in_range _ Hov) in Hm. unfold fingerprint. now rewrite Hm.
Qed.

Lemma step_scan_errors (dirpath filename : string) (s : ScanState) :
  scan_errors (step dirpath filename s)
  = scan_errors s ++ error_of_visit w months (OsPath.join dirpath filename).
Proof.
  unfold error_of_visit.
  destruct (metadata w months (OsPath.join dirpath filename)) as [st|] eqn:Hm.
  - destruct (get_file_attributes_metadata _ (scan_env s) st Hm) as (e & He & _).
    unfold process_file. rewrite He.
    destruct (size _ >=? min_duplicate_size); cbn [scan_errors];
      now rewrite app_nil_r.
  - now destruct (step_failed _ _ s Hm) as (e & -> & _).
Qed.

Lemma step_calls (dirpath filename : string) (s : ScanState) :
  calls (scan_env (step dirpath filename s))
  = calls (scan_env s)
    ++ calls_of_visit w months min_duplicate_size (OsPath.join dirpath filename).
Proof.
  unfold calls_of_visit.
  destruct (metadata w months (OsPath.join dirpath filename)) as [st|] eqn:Hm.
  - destruct (get_file_attributes_metadata _ (scan_env s) st Hm) as (e & He & Hc).
    unfold process_file. rewrite He. cbn [size]. unfold ten_MiB.
    destruct (st_size st >=? min_duplicate_size); cbn [scan_env calls];
      rewrite Hc; [now rewrite <- app_assoc | reflexivity].
  - destruct (step_failed _ _ s Hm) as (e & -> & Hc). cbn [scan_env]. exact Hc.
Qed.

(** ** The traversal *)

Lemma scan_files_app (l1 l2 : list (string * string)) (s : ScanState) :
  scan (l1 ++ l2) s = scan l2 (scan l1 s).
Proof. apply fold_left_app. Qed.

Lemma scan_files_snoc (l : list (string * string)) (v : string * string) (s : ScanState) :
  scan (l ++ [v]) s = step (fst v) (snd v) (scan l s).
Proof. now rewrite scan_files_app. Qed.

(** The two nested loops visit [walk_files] in order. *)
Lemma scan_all_walk_files (root : string) :
  scan_all w root min_duplicate_size months oversized_threshold download_stale_secs
  = scan (walk_files w root) scan0.
Proof.
  unfold scan_all, walk_files. generalize scan0.
  induction (w_walk w root) as [|[[dirpath dirnames] filenames] entries IH]; intros s.
  - reflexivity.
  - cbn [fold_left flat_map]. rewrite scan_files_app, IH. f_equal.
    unfold scan_dir, scan_files. generalize s.
    induction filenames as [|filename filenames IHf]; intros s'; [reflexivity|].
    cbn [map fold_left fst snd]. apply IHf.
Qed.

(** A list of the state to which every visit appends at most one entry:
    it only grows, and every entry added during a traversal is the one
    entry added by some visit of it. *)
Section Appended.

Context {A : Type} (field : ScanState -> list A).
Hypothesis step_appends : forall dirpath filename s,
  exists added, field (step dirpath filename s) = field s ++ added
                /\ (length added <= 1)%nat.

Lemma scan_extends (l : list (string * string)) (s : ScanState) :
  exists rest, field (scan l s) = field s ++ rest.
Proof.
  revert s. induction l as [|v l IH]; intros s.
  - exists []. now rewrite app_nil_r.
  - cbn [scan_files fold_left]. destruct (IH (step (fst v) (snd v) s)) as [rest Hrest].
    destruct (step_appends (fst v) (snd v) s) as (added & Hadd & _).
    exists (added ++ rest). unfold scan_files in Hrest. rewrite Hrest, Hadd.
    now rewrite <- app_assoc.
Qed.

Lemma scan_keeps_visit (pre post : list (string * string)) (v : string * string)
    (s : ScanState) :
  exists rest,
    field (scan (pre ++ v :: post) s)
    = field (step (fst v) (snd v) (scan pre s)) ++ rest.
Proof.
  rewrite scan_files_app. cbn [scan_files fold_left].
  apply (scan_extends post).
Qed.

Lemma scan_origin (l : list (string * string)) (s : ScanState) (x : A) :
  In x (field (scan l s)) ->
  In x (field s)
  \/ exists pre v post,
       l = pre ++ v :: post
       /\ field (step (fst v) (snd v) (scan pre s)) = field (scan pre s) ++ [x].
Proof.
  induction l as [|v l IH] using rev_ind; intros Hin.
  - now left.
  - rewrite scan_files_snoc in Hin.
    destruct (step_appends (fst v) (snd v) (scan l s)) as (added & Hadd & Hlen).
    rewrite Hadd in Hin. apply in_app_or in Hin as [Hin|Hin].
    + destruct (IH Hin) as [Hs|(pre & v' & post & -> & Hv')]; [now left|].
      right. exists pre, v', (post ++ [v]). split; [|exact Hv'].
      now rewrite <- app_assoc.
    + right. exists l, v, []. split; [reflexivity|].
      destruct added as [|y [|z added]]; cbn in Hlen; [destruct Hin | | lia].
      destruct Hin as [->|[]]. exact Hadd.
Qed.

End Appended.

Lemma junk_files_appends (dirpath filename : string) (s : ScanState) :
  exists added, junk_files (step dirpath filename s) = junk_files s ++ added
                /\ (length added <= 1)%nat.
Proof.
  destruct (attributes_of (OsPath.join dirpath filename) (scan_env s))
    as [[a|] e] eqn:Ha.
  - rewrite (step_junk _ _ _ _ _ Ha). eexists; split; [reflexivity|].
    destruct (size a =? 0); [|destruct (_ || _)]; cbn; lia.
  - rewrite (step_junk_failed _ _ _ _ Ha). exists []. rewrite app_nil_r.
    split; [reflexivity | cbn; lia].
Qed.

Lemma old_files_appends (dirpath filename : string) (s : ScanState) :
  exists added, old_files (step dirpath filename s) = old_files s ++ added
                /\ (length added <= 1)%nat.
Proof.
  destruct (attributes_of (OsPath.join dirpath filename) (scan_env s))
    as [[a|] e] eqn:Ha.
  - rewrite (step_old _ _ _ _ _ Ha). eexists; split; [reflexivity|].
    destruct (is_old a); cbn; lia.
  - rewrite (step_old_failed _ _ _ _ Ha). exists []. rewrite app_nil_r.
    split; [reflexivity | cbn; lia].
Qed.

Lemma scan_scan_errors (l : list (string * string)) (s : ScanState) :
  scan_errors (scan l s)
  = scan_errors s ++ flat_map (fun v => error_of_visit w months (full_path v)) l.
Proof.
  revert s. induction l as [|v l IH]; intros s.
  - cbn. now rewrite app_nil_r.
  - cbn [scan_files fold_left flat_map]. unfold scan_files in IH.
    rewrite IH, step_scan_errors, <- app_assoc. reflexivity.
Qed.

Lemma scan_calls (l : list (string * string)) (s : ScanState) :
  calls (scan_env (scan l s))
  = calls (scan_env s)
    ++ flat_map (fun v => calls_of_visit w months min_duplicate_size (full_path v)) l.
Proof.
  revert s. induction l as [|v l IH]; intros s.
  - cbn. now rewrite app_nil_r.
  - cbn [scan_files fold_left flat_map]. unfold scan_files in IH.
    rewrite IH, step_calls, <- app_assoc. reflexivity.
Qed.

(** ** The duplicate index *)

Lemma bucket_hashes_append (h h' path : string) (fh : gmap string (list string)) :
  bucket h (hashes_append h' path fh)
  = if String.eqb h' h then bucket h fh ++ [path] else bucket h fh.
Proof.
  unfold bucket, hashes_append. destruct (String.eqb h' h) eqn:Heq.
  - apply String.eqb_eq in Heq as ->. now rewrite lookup_insert_eq.
  - apply String.eqb_neq in Heq. now rewrite lookup_insert_ne.
Qed.

Lemma no_empty_bucket_append (h path : string) (fh : gmap string (list string)) :
  no_empty_bucket fh -> no_empty_bucket (hashes_append h path fh).
Proof.
  intros Hfh h' paths. unfold hashes_append.
  destruct (decide (h = h')) as [->|Hne].
  - rewrite lookup_insert_eq. intros [= <-]. now destruct (default [] (fh !! h')).
  - rewrite lookup_insert_ne by exact Hne. apply Hfh.
Qed.

Lemma lookup_bucket (h : string) (paths : list string) (fh : gmap string (list string)) :
  no_empty_bucket fh ->
  fh !! h = Some paths <-> bucket h fh = paths /\ paths <> [].
Proof.
  intros Hfh. unfold bucket. split.
  - intros Hlook. rewrite Hlook. split; [reflexivity | exact (Hfh _ _ Hlook)].
  - intros [Hb Hne]. destruct (fh !! h) as [l|]; cbn in Hb; congruence.
Qed.

Lemma has_fingerprint_true (h path : string) :
  has_fingerprint w min_duplicate_size h path = true
  <-> fingerprint w min_duplicate_size path = Some h.
Proof.
  unfold has_fingerprint. destruct (fingerprint w min_duplicate_size path) as [h'|].
  - rewrite String.eqb_eq. split; congruence.
  - split; discriminate.
Qed.

Lemma filed_under_true (h path : string) :
  filed_under w months min_duplicate_size h path = true
  <-> overflow = false /\ fingerprint w min_duplicate_size path = Some h.
Proof.
  unfold filed_under. rewrite andb_true_iff, negb_true_iff, has_fingerprint_true.
  reflexivity.
Qed.

Lemma filed_under_in_range (h : string) (l : list string) :
  overflow = false ->
  List.filter (filed_under w months min_duplicate_size h) l
  = List.filter (has_fingerprint w min_duplicate_size h) l.
Proof.
  intros Hov. apply List.filter_ext. intros path. unfold filed_under.
  now rewrite Hov.
Qed.

Lemma filed_under_overflow (h : string) (l : list string) :
  overflow = true ->
  List.filter (filed_under w months min_duplicate_size h) l = [].
Proof.
  intros Hov. induction l as [|path l IH]; [reflexivity|].
  cbn [List.filter]. unfold filed_under at 1. rewrite Hov. exact IH.
Qed.

Lemma scan_bucket (l : list (string * string)) (s : ScanState) (h : string) :
  bucket h (file_hashes (scan l s))
  = bucket h (file_hashes s)
    ++ List.filter (filed_under w months min_duplicate_size h) (map full_path l).
Proof.
  revert s. induction l as [|v l IH]; intros s.
  - cbn. now rewrite app_nil_r.
  - cbn [scan_files fold_left map List.filter]. unfold scan_files in IH.
    rewrite IH, step_file_hashes.
    unfold filed_under at 2, has_fingerprint, full_path at 2.
    destruct overflow; [reflexivity|]. cbn [negb andb].
    destruct (fingerprint w min_duplicate_size (OsPath.join (fst v) (snd v))) as [h'|];
      [|reflexivity].
    rewrite bucket_hashes_append.
    destruct (String.eqb h' h); [|reflexivity].
    now rewrite <- app_assoc.
Qed.

Lemma scan_no_empty_bucket (l : list (string * string)) (s : ScanState) :
  no_empty_bucket (file_hashes s) -> no_empty_bucket (file_hashes (scan l s)).
Proof.
  revert s. induction l as [|v l IH]; intros s Hs; [exact Hs|].
  cbn [scan_files fold_left]. apply IH. rewrite step_file_hashes.
  destruct overflow; [exact Hs|].
  destruct (fingerprint w min_duplicate_size _); [|exact Hs].
  now apply no_empty_bucket_append.
Qed.

(** The index after a traversal: under each key, the visited paths filed
    under it, in the order of the visits. *)
Lemma scan_file_hashes_lookup (l : list (string * string)) (h : string)
    (paths : list string) :
  file_hashes (scan l scan0) !! h = Some paths
  <-> paths = List.filter (filed_under w months min_duplicate_size h) (map full_path l)
      /\ paths <> [].
Proof.
  rewrite lookup_bucket.
  - rewrite scan_bucket. unfold bucket at 1. cbn [scan0 file_hashes].
    rewrite lookup_empty. cbn [default app]. split; intros [H1 H2]; split; congruence.
  - apply scan_no_empty_bucket. intros h' paths'. cbn [scan0 file_hashes].
    now rewrite lookup_empty.
Qed.

Lemma duplicates_of_lookup (fh : gmap string (list string)) (h : string)
    (paths : list string) :
  duplicates_of fh !! h = Some paths
  <-> fh !! h = Some paths /\ (1 < length paths)%nat.
Proof. unfold duplicates_of. now rewrite map_lookup_filter_Some. Qed.

Lemma scan_duplicates_lookup (l : list (string * string)) (h : string)
    (paths : list string) :
  duplicates_of (file_hashes (scan l scan0)) !! h = Some paths
  <-> paths = List.filter (filed_under w months min_duplicate_size h) (map full_path l)
      /\ (1 < length paths)%nat.
Proof.
  rewrite duplicates_of_lookup, scan_file_hashes_lookup. split.
  - intros [[H1 _] H2]. now split.
  - intros [H1 H2]. repeat split; try assumption.
    intros ->. cbn in H2. lia.
Qed.

(** A duplicate set exists only when the attributes can be computed; it is
    then the list of the visited paths with that fingerprint. *)
Lemma scan_duplicates_fingerprint (l : list (string * string)) (h : string)
    (paths : list string) :
  duplicates_of (file_hashes (scan l scan0)) !! h = Some paths
  <-> overflow = false
      /\ paths = List.filter (has_fingerprint w min_duplicate_size h) (map full_path l)
      /\ (1 < length paths)%nat.
Proof.
  rewrite scan_duplicates_lookup. destruct overflow eqn:Hov.
  - rewrite (filed_under_overflow h _ Hov). split.
    + intros [-> Hlen]. cbn in Hlen. lia.
    + intros [Hf _]. discriminate.
  - rewrite (filed_under_in_range h _ Hov). split.
    + intros [H1 H2]. now repeat split.
    + intros (_ & H1 & H2). now split.
Qed.

(** [analyze_files] on an accepted root. *)
Lemma analyze_files_accepted (root : option string) (r : string) :
  accepted_root w root r ->
  analyze_files w root min_duplicate_size months oversized_threshold download_stale_secs
  = (let s := scan (walk_files w r) scan0 in
     (Report (oversized_files s) (old_files s) (junk_files s)
             (duplicates_of (file_hashes s)) (scan_errors s),
      scan_env s)).
Proof.
  intros [Hv Ht]. unfold analyze_files. rewrite Hv, Ht. cbn [negb].
  now rewrite scan_all_walk_files.
Qed.

(** ** Junk classification *)

(** C1. A visited file whose metadata read succeeds, that is for which
    [get_file_attributes] returns attributes, with size 0 is recorded in
    the junk list with the reason "Empty File", whatever its name (no
    assumption is made on [filename], so a name that matches a junk
    pattern changes nothing): the visit appends exactly that entry, and the
    entry is in the junk list of the final report, after the entries of
    the earlier visits.  The size is the one that [os.stat] reported. *)
Theorem empty_file_reason (root : option string) (r : string)
    (pre post : list (string * string)) (dirpath filename : string)
    (a : Attributes) (e : Env) :
  accepted_root w root r ->
  walk_files w r = pre ++ (dirpath, filename) :: post ->
  let s := scan pre scan0 in
  let path := OsPath.join dirpath filename in
  attributes_of path (scan_env s) = (Some a, e) ->
  size a = 0 ->
  junk_files (step dirpath filename s) = junk_files s ++ [(path, "Empty File")]
  /\ (exists rest,
        report_junk (fst (analyze_files w root min_duplicate_size months
                                        oversized_threshold download_stale_secs))
        = junk_files s ++ (path, "Empty File") :: rest)
  /\ exists st, w_stat w path = Some st /\ st_size st = 0.
Proof.
  intros Hroot Hwalk s path Ha Hsize.
  pose proof (step_junk dirpath filename s a e Ha) as Hstep.
  rewrite Hsize in Hstep. cbn in Hstep.
  split; [exact Hstep|]. split.
  - rewrite (analyze_files_accepted root r Hroot). cbn [fst report_junk].
    rewrite Hwalk.
    destruct (scan_keeps_visit junk_files junk_files_appends pre post
                (dirpath, filename) scan0) as [rest Hrest].
    cbn [fst snd] in Hrest. exists rest. rewrite Hrest. fold s. rewrite Hstep.
    now rewrite <- app_assoc.
  - destruct (get_file_attributes_inv path (scan_env s) e a Ha)
      as (st & Hstat & Hsz & _).
    exists st. split; [exact Hstat | congruence].
Qed.

(** C2. A visited file of size > 0 whose name matches a junk naming
    pattern, or whose [is_stale_download] flag is set, is recorded in the
    junk list with "Stale Incomplete Download" when the flag is set and
    "Temporary File" otherwise; a file matching none of these gets no junk
    entry from its visit, and when the walk yields no path twice the final
    junk list has no entry for its path at all. *)
Theorem junk_pattern_reason (root : option string) (r : string)
    (pre post : list (string * string)) (dirpath filename : string)
    (a : Attributes) (e : Env) :
  accepted_root w root r ->
  walk_files w r = pre ++ (dirpath, filename) :: post ->
  let s := scan pre scan0 in
  let path := OsPath.join dirpath filename in
  let junk := report_junk (fst (analyze_files w root min_duplicate_size months
                                   oversized_threshold download_stale_secs)) in
  attributes_of path (scan_env s) = (Some a, e) ->
  0 < size a ->
  (matches_junk_pattern filename || is_stale_download a = true ->
   let reason := if is_stale_download a then "Stale Incomplete Download"
                 else "Temporary File" in
   junk_files (step dirpath filename s) = junk_files s ++ [(path, reason)]
   /\ exists rest, junk = junk_files s ++ (path, reason) :: rest)
  /\ (matches_junk_pattern filename || is_stale_download a = false ->
      junk_files (step dirpath filename s) = junk_files s
      /\ (List.NoDup (map full_path (walk_files w r)) ->
          forall reason, ~ In (path, reason) junk)).
Proof.
  intros Hroot Hwalk s path junk Ha Hsize.
  pose proof (step_junk dirpath filename s a e Ha) as Hstep.
  assert ((size a =? 0) = false) as Hnz by lia.
  rewrite Hnz in Hstep. split; intros Hmatch; rewrite Hmatch in Hstep.
  - assert ((if negb (is_stale_download a) then "Temporary File"
             else "Stale Incomplete Download")
            = (if is_stale_download a then "Stale Incomplete Download"
               else "Temporary File")) as Hreason
      by (now destruct (is_stale_download a)).
    rewrite Hreason in Hstep. cbv zeta. split; [exact Hstep|].
    subst junk. rewrite (analyze_files_accepted root r Hroot).
    cbn [fst report_junk]. rewrite Hwalk.
    destruct (scan_keeps_visit junk_files junk_files_appends pre post
                (dirpath, filename) scan0) as [rest Hrest].
    cbn [fst snd] in Hrest. exists rest. rewrite Hrest. fold s. rewrite Hstep.
    now rewrite <- app_assoc.
  - rewrite app_nil_r in Hstep. split; [exact Hstep|].
    intros Hnodup reason Hin. subst junk.
    rewrite (analyze_files_accepted root r Hroot) in Hin.
    cbn [fst report_junk] in Hin.
    apply (scan_origin junk_files junk_files_appends) in Hin
      as [Hin|(pre' & v' & post' & Hwalk' & Hadd)]; [destruct Hin|].
    assert (full_path v' = path) as Hpath.
    { destruct (attributes_of (full_path v') (scan_env (scan pre' scan0)))
        as [[a'|] e'] eqn:Ha'.
      - rewrite (step_junk _ _ _ _ _ Ha') in Hadd.
        apply app_inv_head in Hadd.
        destruct (size a' =? 0);
          [|destruct (matches_junk_pattern (snd v') || is_stale_download a')];
          [injection Hadd as ? ? | injection Hadd as ? ? | discriminate]; assumption.
      - rewrite (step_junk_failed _ _ _ _ Ha') in Hadd.
        rewrite <- (app_nil_r (junk_files _)) in Hadd at 1.
        apply app_inv_head in Hadd. discriminate. }
    rewrite Hwalk in Hwalk', Hnodup.
    destruct (split_unique full_path pre pre' post post' (dirpath, filename) v'
                Hnodup Hwalk' (eq_sym Hpath)) as (<- & <- & _).
    cbn [fst snd] in Hadd. fold s in Hadd. rewrite Hstep in Hadd.
    rewrite <- (app_nil_r (junk_files s)) in Hadd at 1.
    apply app_inv_head in Hadd. discriminate.
Qed.

(** ** Derived flags *)

(** C3. For a visited file whose metadata read succeeds, that is for which
    [get_file_attributes] returns attributes, [is_old] holds exactly when
    the last access AND the last modification, as [os.stat] reported them,
    are both earlier than the clock reading minus
    [months * 30 * 24 * 3600]; the visit appends the file to the old list
    exactly when the flag holds, and every entry of the old list of the
    final report comes from a visit whose flag holds. *)
Theorem is_old_requires_both (root : option string) (r : string)
    (pre post : list (string * string)) (dirpath filename : string)
    (a : Attributes) (e : Env) :
  accepted_root w root r ->
  walk_files w r = pre ++ (dirpath, filename) :: post ->
  let s := scan pre scan0 in
  let path := OsPath.join dirpath filename in
  let now := w_time w (ticks (scan_env s)) in
  let old := report_old (fst (analyze_files w root min_duplicate_size months
                                 oversized_threshold download_stale_secs)) in
  attributes_of path (scan_env s) = (Some a, e) ->
  (exists st, w_stat w path = Some st
              /\ last_access a = st_atime st /\ last_mod a = st_mtime st
              /\ (is_old a = true <->
                  st_atime st < now - months * 30 * 24 * 3600
                  /\ st_mtime st < now - months * 30 * 24 * 3600))
  /\ old_files (step dirpath filename s)
     = old_files s ++ (if is_old a then [(path, last_access a, last_mod a)] else [])
  /\ (forall p atime mtime,
        In (p, atime, mtime) old ->
        exists pre' v' post' a' e',
          walk_files w r = pre' ++ v' :: post'
          /\ p = full_path v'
          /\ attributes_of p (scan_env (scan pre' scan0)) = (Some a', e')
          /\ is_old a' = true
          /\ atime = last_access a' /\ mtime = last_mod a').
Proof.
  intros Hroot Hwalk s path now old Ha. split; [|split].
  - destruct (get_file_attributes_eq path (scan_env s) e a Ha) as (st & Hstat & _ & ->).
    exists st. cbn [is_old last_access last_mod].
    split; [exact Hstat|]. split; [reflexivity|]. split; [reflexivity|].
    fold now. rewrite andb_true_iff, !Z.ltb_lt. reflexivity.
  - exact (step_old dirpath filename s a e Ha).
  - intros p atime mtime Hin. subst old.
    rewrite (analyze_files_accepted root r Hroot) in Hin.
    cbn [fst report_old] in Hin.
    apply (scan_origin old_files old_files_appends) in Hin
      as [Hin|(pre' & v' & post' & Hwalk' & Hadd)]; [destruct Hin|].
    destruct (attributes_of (full_path v') (scan_env (scan pre' scan0)))
      as [[a'|] e'] eqn:Ha'.
    + rewrite (step_old _ _ _ _ _ Ha') in Hadd. apply app_inv_head in Hadd.
      destruct (is_old a') eqn:Hold; [|discriminate].
      injection Hadd as <- <- <-.
      exists pre', v', post', a', e'. repeat split; try reflexivity; assumption.
    + rewrite (step_old_failed _ _ _ _ Ha') in Hadd.
      rewrite <- (app_nil_r (old_files _)) in Hadd at 1.
      apply app_inv_head in Hadd. discriminate.
Qed.

(** C4, as the code has it.  When [get_file_attributes] returns
    attributes, the flag [is_stale_download] holds exactly
    when the full path ends, letter case included, with ".crdownload" or
    ".part", AND the clock reading minus the last modification exceeds
    [download_stale_secs]; for every other path it is false whatever the
    age.  The test is on the end of the path, not on the lower-cased
    [os.path.splitext] extension that the junk patterns use. *)
Theorem stale_download_path_suffix (path : string) (env env' : Env) (a : Attributes) :
  attributes_of path env = (Some a, env') ->
  exists st,
    w_stat w path = Some st
    /\ last_mod a = st_mtime st
    /\ (is_stale_download a = true <->
        (PyStr.endswith path ".crdownload" = true \/ PyStr.endswith path ".part" = true)
        /\ w_time w (S (ticks env)) - st_mtime st > download_stale_secs)
    /\ (PyStr.endswith path ".crdownload" = false ->
        PyStr.endswith path ".part" = false ->
        is_stale_download a = false).
Proof.
  intros Ha.
  destruct (get_file_attributes_eq path env env' a Ha) as (st & Hstat & _ & ->).
  exists st. cbn [is_stale_download last_mod].
  split; [exact Hstat|]. split; [reflexivity|].
  unfold PyStr.endswith_any. cbn [existsb]. rewrite orb_false_r. split.
  - rewrite andb_true_iff, orb_true_iff, Z.gtb_gt. reflexivity.
  - intros -> ->. reflexivity.
Qed.

(** ** Duplicate detection *)



(** The fingerprint of a readable file that is large enough to be checked:
    the digest of its content, or of its first [sample_bytes] bytes when
    its size exceeds 10 MiB. *)
Lemma fingerprint_hashed (path : string) (st : stat_result) (f : list Byte.byte) :
  w_stat w path = Some st -> min_duplicate_size <= st_size st ->
  w_open w path = Some f ->
  compute_file_hash w path default_block_size (st_size st >? ten_MiB)
  = Some (SHA256.hexdigest (if st_size st >? ten_MiB then firstn sample_bytes f else f))
  /\ fingerprint w min_duplicate_size path
     = Some (SHA256.hexdigest (if st_size st >? ten_MiB then firstn sample_bytes f else f)).
Proof.
  intros Hstat Hge Hopen. unfold fingerprint. rewrite Hstat.
  assert ((st_size st >=? min_duplicate_size) = true) as -> by lia.
  destruct (st_size st >? ten_MiB).
  - rewrite (compute_file_hash_sample _ _ _ Hopen), hexdigest_truthy. now split.
  - rewrite (compute_file_hash_full _ _ _ Hopen), hexdigest_truthy. now split.
Qed.


(** C6. The fingerprint depends on the content only.  Two visited files
    that are hashed (the age threshold of [months] can be computed, so that
    attributes are obtained; size at least [min_duplicate_size];
    readable), both of
    size at most 10 MiB and with the same content, or both larger than
    10 MiB and with the same first 1 MiB (nothing is assumed on the bytes
    after it), get the same fingerprint: the digest of the content, or of
    its first 1 MiB.  The final report has a duplicate set under that
    fingerprint which holds both paths. *)
Theorem same_content_same_fingerprint (root : option string) (r : string)
    (l1 l2 l3 : list (string * string)) (v1 v2 : string * string)
    (st1 st2 : stat_result) (f1 f2 : list Byte.byte) :
  accepted_root w root r ->
  walk_files w r = l1 ++ v1 :: l2 ++ v2 :: l3 ->
  float_overflow (months * 30 * 24 * 3600) = false ->
  w_stat w (full_path v1) = Some st1 ->
  w_stat w (full_path v2) = Some st2 ->
  min_duplicate_size <= st_size st1 ->
  min_duplicate_size <= st_size st2 ->
  w_open w (full_path v1) = Some f1 ->
  w_open w (full_path v2) = Some f2 ->
  (st_size st1 <= ten_MiB /\ st_size st2 <= ten_MiB /\ f1 = f2)
  \/ (st_size st1 > ten_MiB /\ st_size st2 > ten_MiB
      /\ firstn sample_bytes f1 = firstn sample_bytes f2) ->
  exists h paths,
    compute_file_hash w (full_path v1) default_block_size (st_size st1 >? ten_MiB)
    = Some h
    /\ compute_file_hash w (full_path v2) default_block_size (st_size st2 >? ten_MiB)
       = Some h
    /\ h = SHA256.hexdigest
             (if st_size st1 >? ten_MiB then firstn sample_bytes f1 else f1)
    /\ report_duplicates
         (fst (analyze_files w root min_duplicate_size months oversized_threshold
                             download_stale_secs)) !! h = Some paths
    /\ exists a b c, paths = a ++ full_path v1 :: b ++ full_path v2 :: c.
Proof.
  intros Hroot Hwalk Hov Hstat1 Hstat2 Hge1 Hge2 Hopen1 Hopen2 Hsame.
  destruct (fingerprint_hashed _ _ _ Hstat1 Hge1 Hopen1) as [Hh1 Hfp1].
  destruct (fingerprint_hashed _ _ _ Hstat2 Hge2 Hopen2) as [Hh2 Hfp2].
  set (h := SHA256.hexdigest
              (if st_size st1 >? ten_MiB then firstn sample_bytes f1 else f1)) in *.
  assert (SHA256.hexdigest
            (if st_size st2 >? ten_MiB then firstn sample_bytes f2 else f2) = h) as Heq.
  { subst h. destruct Hsame as [(Hs1 & Hs2 & ->)|(Hs1 & Hs2 & Hpre)].
    - assert ((st_size st1 >? ten_MiB) = false) as -> by lia.
      now assert ((st_size st2 >? ten_MiB) = false) as -> by lia.
    - assert ((st_size st1 >? ten_MiB) = true) as -> by lia.
      assert ((st_size st2 >? ten_MiB) = true) as -> by lia.
      now rewrite Hpre. }
  rewrite Heq in Hh2, Hfp2.
  apply has_fingerprint_true in Hfp1, Hfp2.
  exists h.
  exists (List.filter (has_fingerprint w min_duplicate_size h)
                      (map full_path (walk_files w r))).
  split; [exact Hh1|]. split; [exact Hh2|]. split; [reflexivity|].
  rewrite (analyze_files_accepted root r Hroot). cbn [fst report_duplicates].
  assert (List.filter (has_fingerprint w min_duplicate_size h)
                      (map full_path (walk_files w r))
          = List.filter (has_fingerprint w min_duplicate_size h) (map full_path l1)
            ++ full_path v1
            :: List.filter (has_fingerprint w min_duplicate_size h) (map full_path l2)
            ++ full_path v2
            :: List.filter (has_fingerprint w min_duplicate_size h) (map full_path l3))
    as Hfilter.
  { rewrite Hwalk. rewrite map_app, List.filter_app. cbn [map List.filter].
    rewrite Hfp1. rewrite map_app, List.filter_app. cbn [map List.filter].
    now rewrite Hfp2. }
  split.
  - apply scan_duplicates_fingerprint. split; [exact Hov|]. split; [reflexivity|].
    rewrite Hfilter. rewrite length_app. cbn [length]. rewrite length_app.
    cbn [length]. lia.
  - eauto.
Qed.

(** C7. Every fingerprint retained in the duplicates of the final report
    maps to at least 2 paths, namely the whole list accumulated under it;
    a fingerprint whose accumulated list has fewer than 2 paths is dropped
    and any other is retained; a retained list is the sublist, in the order
    of the traversal, of the visited paths filed under the fingerprint. *)
Theorem duplicates_retained (root : option string) (r : string) (h : string) :
  accepted_root w root r ->
  let index := file_hashes (scan_all w r min_duplicate_size months
                                     oversized_threshold download_stale_secs) in
  let dups := report_duplicates
                (fst (analyze_files w root min_duplicate_size months
                                    oversized_threshold download_stale_secs)) in
  (forall paths,
      dups !! h = Some paths ->
      (2 <= length paths)%nat
      /\ index !! h = Some paths
      /\ paths = List.filter (has_fingerprint w min_duplicate_size h)
                             (map full_path (walk_files w r)))
  /\ (forall paths,
        index !! h = Some paths -> (length paths < 2)%nat -> dups !! h = None)
  /\ (forall paths,
        index !! h = Some paths -> (2 <= length paths)%nat -> dups !! h = Some paths).
Proof.
  intros Hroot index dups. subst index dups.
  rewrite (analyze_files_accepted root r Hroot). cbn [fst report_duplicates].
  rewrite scan_all_walk_files. split; [|split].
  - intros paths Hlook. pose proof Hlook as Hlook'.
    apply duplicates_of_lookup in Hlook as [Hidx Hlen].
    apply scan_duplicates_fingerprint in Hlook' as (_ & Hpaths & _).
    repeat split; [lia | exact Hidx | exact Hpaths].
  - intros paths Hidx Hlen.
    destruct (duplicates_of _ !! h) as [paths'|] eqn:Hlook; [|reflexivity].
    apply duplicates_of_lookup in Hlook as [Hidx' Hlen'].
    rewrite Hidx in Hidx'. injection Hidx' as <-. lia.
  - intros paths Hidx Hlen. apply duplicates_of_lookup. split; [exact Hidx | lia].
Qed.

(** ** Errors, configuration and the shape of the result *)

(** The error list of a completed scan holds one entry per visit for
    which [get_file_attributes] returned no attributes, and nothing else. *)
Lemma scan_errors_only_metadata_failures (root : option string) (r : string) :
  accepted_root w root r ->
  report_errors (fst (analyze_files w root min_duplicate_size months
                                    oversized_threshold download_stale_secs))
  = flat_map (fun v => error_of_visit w months (full_path v)) (walk_files w r).
Proof.
  intros Hroot. rewrite (analyze_files_accepted root r Hroot).
  cbn [fst report_errors]. now rewrite scan_scan_errors.
Qed.

(** A failed content read changes neither the index nor the error list. *)
Lemma step_unreadable (dirpath filename : string) (s : ScanState) (st : stat_result) :
  metadata w months (OsPath.join dirpath filename) = Some st ->
  w_open w (OsPath.join dirpath filename) = None ->
  file_hashes (step dirpath filename s) = file_hashes s
  /\ scan_errors (step dirpath filename s) = scan_errors s.
Proof.
  intros Hm Hopen. rewrite step_file_hashes, step_scan_errors.
  unfold error_of_visit. rewrite Hm, app_nil_r.
  apply metadata_Some in Hm as [Hstat Hov]. rewrite Hov.
  split; [|reflexivity]. unfold fingerprint. rewrite Hstat.
  destruct (st_size st >=? min_duplicate_size); [|reflexivity].
  now rewrite (compute_file_hash_unreadable _ _ _ _ Hopen).
Qed.

(** C9, as the code has it.  [analyze_files] validates its root and nothing
    else: whatever the four thresholds are (they range over all of [Z],
    negative values included), the early return is taken exactly when the
    root is rejected, and on an accepted root the traversal runs to its end
    and returns the five components, having read the metadata of every
    file that the walk yields. *)
Theorem only_root_is_validated (root : option string) :
  let res := analyze_files w root min_duplicate_size months oversized_threshold
                           download_stale_secs in
  (fst res = EmptyLists4 <-> root_rejected w root = true)
  /\ (forall r, accepted_root w root r ->
       (exists oversized old junk duplicates errors,
           fst res = Report oversized old junk duplicates errors)
       /\ forall v, In v (walk_files w r) -> In (CallStat (full_path v)) (calls (snd res))).
Proof.
  intros res. subst res. split.
  - unfold analyze_files, root_rejected.
    destruct (validate_directory_path w root) as [r|]; [|now split].
    destruct (PyStr.truthy r); cbn [negb fst]; split; intros; congruence.
  - intros r Hroot. rewrite (analyze_files_accepted root r Hroot). cbn [fst snd].
    split; [now repeat eexists|].
    intros v Hv. rewrite scan_calls. apply in_or_app. right.
    apply in_flat_map. exists v. split; [exact Hv|]. now left.
Qed.

(** C10. The length of the tuple returned by [analyze_files] depends on the
    validation of the root: four components (four empty lists, no error
    list) when the root is rejected, five components ending with the
    error list otherwise.  The five-target assignment of the callers
    succeeds on a completed scan and fails exactly on a rejected root. *)
Theorem result_arity_depends_on_root (root : option string) :
  let res := fst (analyze_files w root min_duplicate_size months oversized_threshold
                                download_stale_secs) in
  arity res = (if root_rejected w root then 4 else 5)%nat
  /\ (unpack5 res = None <-> root_rejected w root = true)
  /\ (if root_rejected w root
      then res = EmptyLists4
      else exists oversized old junk duplicates errors,
             res = Report oversized old junk duplicates errors
             /\ unpack5 res = Some (oversized, old, junk, duplicates, errors)).
Proof.
  intros res. subst res. unfold analyze_files, root_rejected.
  destruct (validate_directory_path w root) as [r|]; [|now repeat split].
  destruct (PyStr.truthy r); cbn [negb fst arity unpack5].
  - split; [reflexivity|]. split; [split; discriminate|]. now repeat eexists.
  - now repeat split.
Qed.

(** ** Further properties of the scan *)

Lemma step_oversized (dirpath filename : string) (s : ScanState) :
  oversized_files (step dirpath filename s)
  = oversized_files s
    ++ oversized_of_visit w months oversized_threshold (OsPath.join dirpath filename).
Proof.
  unfold oversized_of_visit.
  destruct (metadata w months (OsPath.join dirpath filename)) as [st|] eqn:Hm.
  - destruct (get_file_attributes_metadata _ (scan_env s) st Hm) as (e & He & _).
    unfold process_file. rewrite He. cbn [size is_oversized].
    destruct (st_size st >? oversized_threshold);
      destruct (st_size st >=? min_duplicate_size); cbn [oversized_files];
      rewrite ?app_nil_r; reflexivity.
  - destruct (step_failed _ _ s Hm) as (e & -> & _). cbn [oversized_files].
    now rewrite app_nil_r.
Qed.

Lemma scan_oversized (l : list (string * string)) (s : ScanState) :
  oversized_files (scan l s)
  = oversized_files s
    ++ flat_map (fun v => oversized_of_visit w months oversized_threshold (full_path v)) l.
Proof.
  revert s. induction l as [|v l IH]; intros s.
  - cbn. now rewrite app_nil_r.
  - cbn [scan_files fold_left flat_map]. unfold scan_files in IH.
    rewrite IH, step_oversized, <- app_assoc. reflexivity.
Qed.

(** X1. The oversized list of a completed scan is, in the order of the
    traversal, the visited files for which [get_file_attributes] returns
    attributes ([os.stat] succeeds and the age threshold of [months] can
    be computed) with a size strictly above the threshold, each with the
    size that [os.stat] returned; a file exactly at the threshold is not
    listed, and when the age threshold cannot be computed the list is
    empty. *)
Theorem oversized_list_exact (root : option string) (r : string) :
  accepted_root w root r ->
  let oversized :=
    report_oversized (fst (analyze_files w root min_duplicate_size months
                                         oversized_threshold download_stale_secs)) in
  oversized
  = flat_map (fun v => oversized_of_visit w months oversized_threshold (full_path v))
             (walk_files w r)
  /\ forall path sz,
       In (path, sz) oversized
       <-> float_overflow (months * 30 * 24 * 3600) = false
           /\ exists v st, In v (walk_files w r) /\ path = full_path v
                            /\ w_stat w path = Some st /\ sz = st_size st
                            /\ oversized_threshold < sz.
Proof.
  intros Hroot oversized.
  assert (oversized
          = flat_map (fun v => oversized_of_visit w months oversized_threshold
                                                  (full_path v))
                     (walk_files w r)) as Heq.
  { subst oversized. rewrite (analyze_files_accepted root r Hroot).
    cbn [fst report_oversized]. now rewrite scan_oversized. }
  split; [exact Heq|]. intros path sz. rewrite Heq, in_flat_map.
  unfold oversized_of_visit. split.
  - intros (v & Hv & Hin).
    destruct (metadata w months (full_path v)) as [st|] eqn:Hm; [|destruct Hin].
    apply metadata_Some in Hm as [Hstat Hov].
    destruct (st_size st >? oversized_threshold) eqn:Hgt; [|destruct Hin].
    destruct Hin as [[= <- <-]|[]]. split; [exact Hov|].
    exists v, st. repeat split; try assumption. lia.
  - intros (Hov & v & st & Hv & -> & Hstat & -> & Hgt). exists v. split; [exact Hv|].
    rewrite (metadata_in_range _ Hov), Hstat.
    assert ((st_size st >? oversized_threshold) = true) as -> by lia.
    now left.
Qed.

(** X2. The error list of a completed scan has exactly one entry per visit
    for which [get_file_attributes] returns no attributes, in the order of
    the traversal, and each entry is the text "Error accessing " followed
    by the full path.  When the age threshold of [months] can be computed
    these are the visits whose [os.stat] fails; when it cannot, they are
    all the visits. *)
Theorem error_list_exact (root : option string) (r : string) :
  accepted_root w root r ->
  let errors :=
    report_errors (fst (analyze_files w root min_duplicate_size months
                                      oversized_threshold download_stale_secs)) in
  let paths := map full_path (walk_files w r) in
  errors
  = map (fun path => "Error accessing " +:+ path)
        (List.filter (fun path => match metadata w months path with
                                  | Some _ => false
                                  | None => true
                                  end) paths)
  /\ (float_overflow (months * 30 * 24 * 3600) = false ->
      errors
      = map (fun path => "Error accessing " +:+ path)
            (List.filter (fun path => match w_stat w path with
                                      | Some _ => false
                                      | None => true
                                      end) paths))
  /\ (float_overflow (months * 30 * 24 * 3600) = true ->
      errors = map (fun path => "Error accessing " +:+ path) paths)
  /\ (errors = [] <->
      forall v, In v (walk_files w r) -> metadata w months (full_path v) <> None).
Proof.
  intros Hroot errors paths.
  assert (errors
          = map (fun path => "Error accessing " +:+ path)
                (List.filter (fun path => match metadata w months path with
                                          | Some _ => false
                                          | None => true
                                          end) paths)) as Heq.
  { subst errors paths. rewrite (analyze_files_accepted root r Hroot).
    cbn [fst report_errors]. rewrite scan_scan_errors. cbn [scan0 scan_errors app].
    induction (walk_files w r) as [|v l IH]; [reflexivity|].
    cbn [flat_map map List.filter]. rewrite IH. unfold error_of_visit.
    now destruct (metadata w months (full_path v)). }
  split; [exact Heq|]. rewrite Heq. clear Heq errors. subst paths.
  split; [|split].
  - intros Hov. f_equal. apply List.filter_ext. intros path.
    now rewrite (metadata_in_range path Hov).
  - intros Hov. f_equal. induction (map full_path (walk_files w r)) as [|p l IH];
      [reflexivity|].
    cbn [List.filter]. rewrite (metadata_overflow p Hov). now rewrite IH.
  - induction (walk_files w r) as [|v l IH].
    + split; [intros _ v []| reflexivity].
    + cbn [map List.filter]. destruct (metadata w months (full_path v)) eqn:Hm.
      * rewrite IH. split.
        -- intros Hall v' [<-|Hv']; [congruence | now apply Hall].
        -- intros Hall v' Hv'. apply Hall. now right.
      * cbn [map]. split; [discriminate|]. intros Hall. exfalso.
        apply (Hall v); [now left | exact Hm].
Qed.

Lemma step_ticks (dirpath filename : string) (s : ScanState) :
  ticks (scan_env (step dirpath filename s))
  = (ticks (scan_env s) + ticks_of_visit w months (OsPath.join dirpath filename))%nat.
Proof.
  unfold ticks_of_visit.
  destruct (w_stat w (OsPath.join dirpath filename)) as [st|] eqn:Hstat.
  - destruct overflow eqn:Hov.
    + rewrite (step_overflow _ _ s st Hstat Hov). cbn [scan_env ticks]. lia.
    + unfold process_file, get_file_attributes. rewrite Hstat, Hov. cbn [ticks calls].
      destruct (PyStr.endswith_any _ _); cbn [size];
        destruct (st_size st >=? min_duplicate_size); cbn [scan_env ticks]; lia.
  - rewrite (step_failed_stat _ _ _ Hstat). cbn [scan_env ticks]. lia.
Qed.

Lemma scan_ticks (l : list (string * string)) (s : ScanState) :
  ticks (scan_env (scan l s))
  = (ticks (scan_env s)
     + list_sum (map (fun v => ticks_of_visit w months (full_path v)) l))%nat.
Proof.
  revert s. induction l as [|v l IH]; intros s.
  - cbn. lia.
  - cbn [scan_files fold_left]. unfold scan_files in IH.
    rewrite IH, step_ticks. cbn [map]. unfold list_sum, full_path. cbn [foldr]. lia.
Qed.

(** X3. One pass, one metadata read per file.  The calls of a completed
    scan are, for each visited file in the order of the traversal, one
    [os.stat] and then, only when attributes are obtained ([os.stat]
    succeeds and the age threshold of [months] can be computed) with a
    size of at least [min_duplicate_size], one [compute_file_hash] in the
    mode given by the 10 MiB test; the clock is read once per successful
    [os.stat] and, when the age threshold can be computed, once more for a
    path with a download suffix. *)
Theorem calls_of_scan (root : option string) (r : string) :
  accepted_root w root r ->
  let env := snd (analyze_files w root min_duplicate_size months
                                oversized_threshold download_stale_secs) in
  calls env
  = flat_map (fun v => calls_of_visit w months min_duplicate_size (full_path v))
             (walk_files w r)
  /\ ticks env
     = list_sum (map (fun v => ticks_of_visit w months (full_path v)) (walk_files w r))
  /\ List.filter (fun c => match c with CallStat _ => true | CallHash _ _ => false end)
                 (calls env)
     = map (fun v => CallStat (full_path v)) (walk_files w r).
Proof.
  intros Hroot env. subst env. rewrite (analyze_files_accepted root r Hroot).
  cbn [snd]. rewrite scan_calls, scan_ticks. cbn [scan0 scan_env env0 calls ticks app].
  split; [reflexivity|]. split; [reflexivity|].
  induction (walk_files w r) as [|v l IH]; [reflexivity|].
  cbn [flat_map map]. rewrite List.filter_app, IH. unfold calls_of_visit at 1.
  cbn [List.filter]. destruct (metadata w months (full_path v)) as [st|]; [|reflexivity].
  now destruct (st_size st >=? min_duplicate_size).
Qed.

(** A list of the state whose entries carry the path of the visit that
    added them: its paths form a subsequence of the visited paths. *)
Section Keyed.

Context {A : Type} (field : ScanState -> list A) (key : A -> string).
Hypothesis step_keyed : forall dirpath filename s,
  exists added, field (step dirpath filename s) = field s ++ added
                /\ sublist (map key added) [OsPath.join dirpath filename].

Lemma scan_keyed_sublist (l : list (string * string)) (s : ScanState) :
  sublist (map key (field (scan l s))) (map key (field s) ++ map full_path l).
Proof.
  revert s. induction l as [|v l IH]; intros s.
  - cbn [scan_files fold_left map]. now rewrite app_nil_r.
  - cbn [scan_files fold_left map]. unfold scan_files in IH.
    etransitivity; [apply IH|].
    destruct (step_keyed (fst v) (snd v) s) as (added & -> & Hadded).
    rewrite map_app, <- app_assoc. apply sublist_app; [reflexivity|].
    change (full_path v :: map full_path l) with ([full_path v] ++ map full_path l).
    apply sublist_app; [exact Hadded | reflexivity].
Qed.

End Keyed.

Lemma oversized_files_keyed (dirpath filename : string) (s : ScanState) :
  exists added, oversized_files (step dirpath filename s) = oversized_files s ++ added
                /\ sublist (map fst added) [OsPath.join dirpath filename].
Proof.
  rewrite step_oversized. eexists; split; [reflexivity|]. unfold oversized_of_visit.
  destruct (metadata w months _) as [st|]; [|apply sublist_nil_l].
  destruct (st_size st >? oversized_threshold); [reflexivity | apply sublist_nil_l].
Qed.

Lemma old_files_keyed (dirpath filename : string) (s : ScanState) :
  exists added, old_files (step dirpath filename s) = old_files s ++ added
                /\ sublist (map (fun x => fst (fst x)) added) [OsPath.join dirpath filename].
Proof.
  destruct (attributes_of (OsPath.join dirpath filename) (scan_env s))
    as [[a|] e] eqn:Ha.
  - rewrite (step_old _ _ _ _ _ Ha). eexists; split; [reflexivity|].
    destruct (is_old a); [reflexivity | apply sublist_nil_l].
  - rewrite (step_old_failed _ _ _ _ Ha). exists []. rewrite app_nil_r.
    split; [reflexivity | apply sublist_nil_l].
Qed.

Lemma junk_files_keyed (dirpath filename : string) (s : ScanState) :
  exists added, junk_files (step dirpath filename s) = junk_files s ++ added
                /\ sublist (map fst added) [OsPath.join dirpath filename].
Proof.
  destruct (attributes_of (OsPath.join dirpath filename) (scan_env s))
    as [[a|] e] eqn:Ha.
  - rewrite (step_junk _ _ _ _ _ Ha). eexists; split; [reflexivity|].
    destruct (size a =? 0); [reflexivity|].
    destruct (matches_junk_pattern filename || is_stale_download a);
      [reflexivity | apply sublist_nil_l].
  - rewrite (step_junk_failed _ _ _ _ Ha). exists []. rewrite app_nil_r.
    split; [reflexivity | apply sublist_nil_l].
Qed.

(** X4. The three classification lists follow the traversal: the paths of
    the oversized, old and junk lists are subsequences of the visited
    paths.  When the walk yields no path twice, no list names a file
    twice; in particular a file has at most one junk reason. *)
Theorem lists_follow_traversal (root : option string) (r : string) :
  accepted_root w root r ->
  let res := fst (analyze_files w root min_duplicate_size months
                                oversized_threshold download_stale_secs) in
  let paths := map full_path (walk_files w r) in
  sublist (map fst (report_oversized res)) paths
  /\ sublist (map (fun x => fst (fst x)) (report_old res)) paths
  /\ sublist (map fst (report_junk res)) paths
  /\ (List.NoDup paths ->
      List.NoDup (map fst (report_junk res))
      /\ forall path reason reason',
           In (path, reason) (report_junk res) ->
           In (path, reason') (report_junk res) -> reason = reason').
Proof.
  intros Hroot res paths. subst res paths.
  rewrite (analyze_files_accepted root r Hroot).
  cbn [fst report_oversized report_old report_junk].
  pose proof (scan_keyed_sublist oversized_files fst oversized_files_keyed
                (walk_files w r) scan0) as Hov.
  pose proof (scan_keyed_sublist old_files (fun x => fst (fst x)) old_files_keyed
                (walk_files w r) scan0) as Hold.
  pose proof (scan_keyed_sublist junk_files fst junk_files_keyed
                (walk_files w r) scan0) as Hjunk.
  cbn [scan0 oversized_files old_files junk_files map app] in Hov, Hold, Hjunk.
  split; [exact Hov|]. split; [exact Hold|]. split; [exact Hjunk|].
  intros Hnodup.
  assert (List.NoDup (map fst (junk_files (scan (walk_files w r) scan0)))) as Hnd
    by (apply NoDup_ListNoDup; eapply sublist_NoDup;
        [apply NoDup_ListNoDup; exact Hnodup | exact Hjunk]).
  split; [exact Hnd|].
  intros path reason reason'.
  generalize dependent (junk_files (scan (walk_files w r) scan0)).
  intros junk _ Hnd. induction junk as [|[p q] junk IH]; intros Hin Hin'.
  - destruct Hin.
  - cbn [map fst] in Hnd. apply List.NoDup_cons_iff in Hnd as [Hnotin Hnd].
    destruct Hin as [Heq|Hin], Hin' as [Heq'|Hin'].
    + congruence.
    + injection Heq as -> ->. exfalso. apply Hnotin.
      change path with (fst (path, reason')). now apply in_map.
    + injection Heq' as -> ->. exfalso. apply Hnotin.
      change path with (fst (path, reason)). now apply in_map.
    + now apply IH.
Qed.

(** ** Further properties of the duplicate sets *)

Lemma fingerprint_inv (path h : string) :
  fingerprint w min_duplicate_size path = Some h ->
  exists st f,
    w_stat w path = Some st /\ min_duplicate_size <= st_size st
    /\ w_open w path = Some f
    /\ h = SHA256.hexdigest (if st_size st >? ten_MiB then firstn sample_bytes f else f).
Proof.
  intros Hfp. pose proof Hfp as Hfp'. unfold fingerprint in Hfp.
  destruct (w_stat w path) as [st|] eqn:Hstat; [|discriminate].
  destruct (st_size st >=? min_duplicate_size) eqn:Hge; [|discriminate].
  destruct (w_open w path) as [f|] eqn:Hopen.
  - exists st, f. assert (min_duplicate_size <= st_size st) as Hle by lia.
    destruct (fingerprint_hashed path st f Hstat Hle Hopen) as [_ Hfp''].
    repeat split; try assumption. congruence.
  - now rewrite (compute_file_hash_unreadable _ _ _ _ Hopen) in Hfp.
Qed.

(** X5. Every path of a duplicate set is a visited file whose metadata read
    succeeded with a size of at least [min_duplicate_size] and whose
    content could be read, and the key of the set is the SHA-256 digest of
    that content (of its first 1 MiB when the size exceeds 10 MiB); the set
    lists its paths in the order of the traversal. *)
Theorem duplicate_set_members (root : option string) (r : string)
    (h : string) (paths : list string) :
  accepted_root w root r ->
  report_duplicates (fst (analyze_files w root min_duplicate_size months
                                        oversized_threshold download_stale_secs))
    !! h = Some paths ->
  sublist paths (map full_path (walk_files w r))
  /\ forall path,
       In path paths ->
       exists v st f,
         In v (walk_files w r) /\ path = full_path v
         /\ w_stat w path = Some st /\ min_duplicate_size <= st_size st
         /\ w_open w path = Some f
         /\ h = SHA256.hexdigest
                  (if st_size st >? ten_MiB then firstn sample_bytes f else f).
Proof.
  intros Hroot Hlook. rewrite (analyze_files_accepted root r Hroot) in Hlook.
  cbn [fst report_duplicates] in Hlook.
  apply scan_duplicates_fingerprint in Hlook as (_ & -> & _). split.
  - induction (map full_path (walk_files w r)) as [|p l IH]; [reflexivity|].
    cbn [List.filter]. destruct (has_fingerprint w min_duplicate_size h p).
    + now apply sublist_skip.
    + now apply sublist_cons.
  - intros path Hin. apply filter_In in Hin as [Hin Hfp].
    apply in_map_iff in Hin as (v & <- & Hv).
    apply has_fingerprint_true, fingerprint_inv in Hfp as (st & f & H1 & H2 & H3 & H4).
    now exists v, st, f.
Qed.

(** X6. The duplicate sets are pairwise disjoint: a path is in the set of at
    most one fingerprint. *)
Theorem duplicate_sets_disjoint (root : option string) (r : string)
    (h1 h2 : string) (paths1 paths2 : list string) (path : string) :
  accepted_root w root r ->
  let dups := report_duplicates
                (fst (analyze_files w root min_duplicate_size months
                                    oversized_threshold download_stale_secs)) in
  dups !! h1 = Some paths1 ->
  dups !! h2 = Some paths2 ->
  In path paths1 -> In path paths2 ->
  h1 = h2.
Proof.
  intros Hroot dups Hlook1 Hlook2 Hin1 Hin2. subst dups.
  rewrite (analyze_files_accepted root r Hroot) in Hlook1, Hlook2.
  cbn [fst report_duplicates] in Hlook1, Hlook2.
  apply scan_duplicates_fingerprint in Hlook1 as (_ & -> & _), Hlook2 as (_ & -> & _).
  apply filter_In in Hin1 as [_ Hfp1], Hin2 as [_ Hfp2].
  apply has_fingerprint_true in Hfp1, Hfp2. congruence.
Qed.

(** Two visits filed under the same key end in one duplicate set. *)
Lemma same_fingerprint_grouped (r : string) (l1 l2 l3 : list (string * string))
    (v1 v2 : string * string) (h : string) :
  walk_files w r = l1 ++ v1 :: l2 ++ v2 :: l3 ->
  overflow = false ->
  fingerprint w min_duplicate_size (full_path v1) = Some h ->
  fingerprint w min_duplicate_size (full_path v2) = Some h ->
  exists paths,
    duplicates_of (file_hashes (scan (walk_files w r) scan0)) !! h = Some paths
    /\ exists a b c, paths = a ++ full_path v1 :: b ++ full_path v2 :: c.
Proof.
  intros Hwalk Hov Hfp1 Hfp2. apply has_fingerprint_true in Hfp1, Hfp2.
  exists (List.filter (has_fingerprint w min_duplicate_size h)
                      (map full_path (walk_files w r))).
  assert (List.filter (has_fingerprint w min_duplicate_size h)
                      (map full_path (walk_files w r))
          = List.filter (has_fingerprint w min_duplicate_size h) (map full_path l1)
            ++ full_path v1
            :: List.filter (has_fingerprint w min_duplicate_size h) (map full_path l2)
            ++ full_path v2
            :: List.filter (has_fingerprint w min_duplicate_size h) (map full_path l3))
    as Hfilter.
  { rewrite Hwalk. rewrite map_app, List.filter_app. cbn [map List.filter].
    rewrite Hfp1. rewrite map_app, List.filter_app. cbn [map List.filter].
    now rewrite Hfp2. }
  split; [|eauto].
  apply scan_duplicates_fingerprint. split; [exact Hov|]. split; [reflexivity|].
  rewrite Hfilter, length_app. cbn [length]. rewrite length_app. cbn [length]. lia.
Qed.

(** X7. The size is not part of the fingerprint.  When the age threshold
    of [months] can be computed, so that attributes are obtained, a file
    of at most 10 MiB whose content equals the first 1 MiB of a file larger
    than 10 MiB is reported as its duplicate, whichever is visited first,
    although the two files differ in size. *)
Theorem duplicates_across_sizes (root : option string) (r : string)
    (l1 l2 l3 : list (string * string)) (small big : string * string)
    (st_small st_big : stat_result) (f_small f_big : list Byte.byte) :
  accepted_root w root r ->
  walk_files w r = l1 ++ small :: l2 ++ big :: l3
  \/ walk_files w r = l1 ++ big :: l2 ++ small :: l3 ->
  float_overflow (months * 30 * 24 * 3600) = false ->
  w_stat w (full_path small) = Some st_small ->
  w_stat w (full_path big) = Some st_big ->
  min_duplicate_size <= st_size st_small <= ten_MiB ->
  min_duplicate_size <= st_size st_big ->
  ten_MiB < st_size st_big ->
  w_open w (full_path small) = Some f_small ->
  w_open w (full_path big) = Some f_big ->
  f_small = firstn sample_bytes f_big ->
  exists paths,
    report_duplicates (fst (analyze_files w root min_duplicate_size months
                                          oversized_threshold download_stale_secs))
      !! SHA256.hexdigest f_small = Some paths
    /\ In (full_path small) paths /\ In (full_path big) paths.
Proof.
  intros Hroot Hwalk Hov Hstat_s Hstat_b [Hge_s Hle_s] Hge_b Hgt_b Hopen_s Hopen_b Hpre.
  destruct (fingerprint_hashed _ _ _ Hstat_s Hge_s Hopen_s) as [_ Hfp_s].
  destruct (fingerprint_hashed _ _ _ Hstat_b Hge_b Hopen_b) as [_ Hfp_b].
  assert ((st_size st_small >? ten_MiB) = false) as Hs by lia.
  assert ((st_size st_big >? ten_MiB) = true) as Hb by lia.
  rewrite Hs in Hfp_s. rewrite Hb, <- Hpre in Hfp_b.
  rewrite (analyze_files_accepted root r Hroot). cbn [fst report_duplicates].
  destruct Hwalk as [Hwalk|Hwalk].
  - destruct (same_fingerprint_grouped r l1 l2 l3 small big _ Hwalk Hov Hfp_s Hfp_b)
      as (paths & Hlook & a & b & c & ->).
    exists (a ++ full_path small :: b ++ full_path big :: c).
    split; [exact Hlook|]. rewrite !in_app_iff. cbn [In]. rewrite !in_app_iff.
    cbn [In]. tauto.
  - destruct (same_fingerprint_grouped r l1 l2 l3 big small _ Hwalk Hov Hfp_b Hfp_s)
      as (paths & Hlook & a & b & c & ->).
    exists (a ++ full_path big :: b ++ full_path small :: c).
    split; [exact Hlook|]. rewrite !in_app_iff. cbn [In]. rewrite !in_app_iff.
    cbn [In]. tauto.
Qed.

(** ** Further properties of [compute_file_hash] *)

(** X8. In full mode the digest does not depend on the block size: every
    positive [block_size] hashes the whole content.  With [block_size] 0
    the first read returns the sentinel, nothing is hashed and the result
    is the digest of the empty input, whatever the file holds. *)
Theorem hash_independent_of_block_size (path : string) (f : list Byte.byte) (n : nat) :
  w_open w path = Some f ->
  compute_file_hash w path (S n) false = Some (SHA256.hexdigest f)
  /\ compute_file_hash w path 0 false = Some (SHA256.hexdigest []).
Proof.
  intros Hopen. unfold compute_file_hash. rewrite Hopen. split.
  - now rewrite read_blocks_all.
  - now simp read_blocks.
Qed.

(** X9. For a file that holds at most 1 MiB the sampled fingerprint is the
    full one. *)
Theorem sample_of_short_file (path : string) (f : list Byte.byte) (n : nat) :
  w_open w path = Some f ->
  (length f <= sample_bytes)%nat ->
  compute_file_hash w path (S n) true = compute_file_hash w path (S n) false.
Proof.
  intros Hopen Hlen. unfold compute_file_hash. rewrite Hopen.
  rewrite read_blocks_all. unfold hasher_update, file_read. cbn [fst app].
  now rewrite (take_ge f sample_bytes Hlen).
Qed.

End Scan.

(** ** The theorems at work on the example environments *)

(** [empty.part] is empty, its name matches the extension pattern and it
    is a stale download: the reason recorded is still "Empty File". *)
Lemma empty_file_reason_witness :
  accepted_root example_world (Some "/data") "/data"
  /\ fst (get_file_attributes example_world (OsPath.join "/data" "empty.part")
            6 1073741824 3600 env0)
     = Some (mkAttributes 0 false false true 19999000 19000000)
  /\ matches_junk_pattern "empty.part" = true
  /\ exists rest,
       report_junk (fst (analyze_files example_world (Some "/data") 0 6 1073741824 3600))
       = ("/data/empty.part", "Empty File") :: rest.
Proof.
  split; [split; reflexivity|]. split; [reflexivity|]. split; [reflexivity|].
  edestruct (empty_file_reason example_world 0 6 1073741824 3600 (Some "/data") "/data"
               [] (skipn 1 (walk_files example_world "/data"))
               "/data" "empty.part")
    as (_ & Hreport & _).
  - split; reflexivity.
  - reflexivity.
  - vm_compute. reflexivity.
  - reflexivity.
  - exact Hreport.
Defined.

(** [partial.crdownload], the fourth file visited, was modified two hours
    before the scan. *)
Lemma junk_pattern_reason_witness :
  accepted_root example_world (Some "/data") "/data"
  /\ exists rest,
       report_junk (fst (analyze_files example_world (Some "/data") 0 6 1073741824 3600))
       = junk_files (scan_files example_world 0 6 1073741824 3600
                       [("/data", "empty.part"); ("/data", "a.txt"); ("/data", "b.txt")]
                       scan0)
         ++ ("/data/partial.crdownload", "Stale Incomplete Download") :: rest.
Proof.
  split; [split; reflexivity|].
  edestruct (junk_pattern_reason example_world 0 6 1073741824 3600 (Some "/data") "/data"
               [("/data", "empty.part"); ("/data", "a.txt"); ("/data", "b.txt")]
               (skipn 4 (walk_files example_world "/data"))
               "/data" "partial.crdownload")
    as [Hjunk _].
  - split; reflexivity.
  - reflexivity.
  - vm_compute. reflexivity.
  - reflexivity.
  - destruct (Hjunk eq_refl) as [_ Hreport]. exact Hreport.
Defined.

(** [a.txt] was neither read nor written for long; it is the first entry
    of the old list. *)
Lemma is_old_requires_both_witness :
  accepted_root example_world (Some "/data") "/data"
  /\ get_file_attributes example_world (OsPath.join "/data" "a.txt") 6 1073741824 3600
       (scan_env (scan_files example_world 0 6 1073741824 3600
                    [("/data", "empty.part")] scan0))
     = (Some (mkAttributes 3 false true false 1000 1000),
        mkEnv 3 [CallStat "/data/empty.part"; CallHash "/data/empty.part" false;
                 CallStat "/data/a.txt"])
  /\ exists st,
       w_stat example_world (OsPath.join "/data" "a.txt") = Some st
       /\ 1000 = st_atime st /\ 1000 = st_mtime st
       /\ (true = true <->
           st_atime st < w_time example_world 2 - 6 * 30 * 24 * 3600
           /\ st_mtime st < w_time example_world 2 - 6 * 30 * 24 * 3600).
Proof.
  split; [split; reflexivity|]. split; [vm_compute; reflexivity|].
  edestruct (is_old_requires_both example_world 0 6 1073741824 3600 (Some "/data") "/data"
               [("/data", "empty.part")] (skipn 2 (walk_files example_world "/data"))
               "/data" "a.txt" (mkAttributes 3 false true false 1000 1000))
    as (Hold & _ & _).
  - split; reflexivity.
  - reflexivity.
  - vm_compute. reflexivity.
  - exact Hold.
Defined.

(** [partial.crdownload] again, read in a fresh environment. *)
Lemma stale_download_path_suffix_witness :
  get_file_attributes example_world "/data/partial.crdownload" 6 1073741824 3600 env0
  = (Some (mkAttributes 5 false false true 19999000 19992800),
     mkEnv 2 [CallStat "/data/partial.crdownload"])
  /\ exists st,
       w_stat example_world "/data/partial.crdownload" = Some st
       /\ 19992800 = st_mtime st
       /\ (true = true <->
           (PyStr.endswith "/data/partial.crdownload" ".crdownload" = true
            \/ PyStr.endswith "/data/partial.crdownload" ".part" = true)
           /\ w_time example_world 1 - st_mtime st > 3600).
Proof.
  split; [vm_compute; reflexivity|].
  destruct (stale_download_path_suffix example_world 6 1073741824 3600
              "/data/partial.crdownload" env0
              (mkEnv 2 [CallStat "/data/partial.crdownload"])
              (mkAttributes 5 false false true 19999000 19992800) eq_refl)
    as (st & Hstat & Hmt & Hstale & _).
  exists st. split; [exact Hstat|]. split; [exact Hmt | exact Hstale].
Defined.


(** The two copies of "abc" are reported under the digest of "abc". *)
Lemma duplicates_retained_witness :
  accepted_root example_world (Some "/data") "/data"
  /\ forall paths,
       report_duplicates
         (fst (analyze_files example_world (Some "/data") 0 6 1073741824 3600))
         !! "ba7816bf8f01cfea414140de5dae2223b00361a396177a9cb410ff61f20015ad"
       = Some paths ->
       (2 <= length paths)%nat
       /\ paths
          = List.filter
              (has_fingerprint example_world 0
                 "ba7816bf8f01cfea414140de5dae2223b00361a396177a9cb410ff61f20015ad")
              (map full_path (walk_files example_world "/data")).
Proof.
  split; [split; reflexivity|].
  destruct (duplicates_retained example_world 0 6 1073741824 3600 (Some "/data") "/data"
              "ba7816bf8f01cfea414140de5dae2223b00361a396177a9cb410ff61f20015ad")
    as (Hretained & _ & _).
  - split; reflexivity.
  - intros paths Hlook. destruct (Hretained paths Hlook) as (Hlen & _ & Horder).
    split; [exact Hlen | exact Horder].
Defined.

Example duplicates_of_example :
  map_to_list
    (report_duplicates
       (fst (analyze_files example_world (Some "/data") 0 6 1073741824 3600)))
  = [("ba7816bf8f01cfea414140de5dae2223b00361a396177a9cb410ff61f20015ad",
      ["/data/a.txt"; "/data/b.txt"])].
Proof. vm_compute. reflexivity. Qed.

Lemma big_files_differ : big_a <> big_b.
Proof.
  unfold big_a, big_b. intros Heq. apply app_inv_head in Heq. discriminate.
Qed.

Lemma big_files_same_sample : firstn sample_bytes big_a = firstn sample_bytes big_b.
Proof.
  unfold big_a, big_b.
  assert (sample_bytes <= length big_zeros)%nat as Hle.
  { rewrite length_big_zeros, sample_bytes_eq. unfold ten_MiB. lia. }
  rewrite (take_app_le big_zeros [Byte.x01] sample_bytes Hle).
  rewrite (take_app_le big_zeros [Byte.x02] sample_bytes Hle).
  reflexivity.
Qed.

(** The two copies of "abc" (at most 10 MiB, same content), and the two
    files of 10 MiB + 1 bytes that agree on their first MiB and differ in
    their last byte. *)
Lemma same_content_same_fingerprint_witness :
  (accepted_root example_world (Some "/data") "/data"
   /\ w_open example_world "/data/a.txt" = w_open example_world "/data/b.txt"
   /\ exists paths,
        report_duplicates
          (fst (analyze_files example_world (Some "/data") 0 6 1073741824 3600))
          !! SHA256.hexdigest (list_byte_of_string "abc")
        = Some paths
        /\ exists a b c, paths = a ++ "/data/a.txt" :: b ++ "/data/b.txt" :: c)
  /\ (accepted_root big_world (Some "/big") "/big"
      /\ big_a <> big_b
      /\ firstn sample_bytes big_a = firstn sample_bytes big_b
      /\ exists paths,
           report_duplicates
             (fst (analyze_files big_world (Some "/big") 0 6 1073741824 3600))
             !! SHA256.hexdigest (firstn sample_bytes big_a)
           = Some paths
           /\ exists a b c, paths = a ++ "/big/a.bin" :: b ++ "/big/b.bin" :: c).
Proof.
  split.
  - split; [split; reflexivity|]. split; [reflexivity|].
    destruct (same_content_same_fingerprint example_world 0 6 1073741824 3600
                (Some "/data") "/data"
                [("/data", "empty.part")] [] (skipn 3 (walk_files example_world "/data"))
                ("/data", "a.txt") ("/data", "b.txt")
                (mkStat 3 1000 1000) (mkStat 3 19999000 1000)
                (list_byte_of_string "abc") (list_byte_of_string "abc"))
      as (h & paths & _ & _ & -> & Hlook & Hpaths).
    + split; reflexivity.
    + reflexivity.
    + reflexivity.
    + reflexivity.
    + reflexivity.
    + cbn [st_size]. lia.
    + cbn [st_size]. lia.
    + reflexivity.
    + reflexivity.
    + left. cbn [st_size]. unfold ten_MiB. split; [lia|]. split; [lia | reflexivity].
    + exists paths. split; [exact Hlook | exact Hpaths].
  - split; [split; reflexivity|]. split; [exact big_files_differ|].
    split; [exact big_files_same_sample|].
    destruct (same_content_same_fingerprint big_world 0 6 1073741824 3600
                (Some "/big") "/big" [] [] []
                ("/big", "a.bin") ("/big", "b.bin")
                (mkStat (ten_MiB + 1) 19999000 19999000)
                (mkStat (ten_MiB + 1) 19999000 19999000)
                big_a big_b)
      as (h & paths & _ & _ & Hh & Hlook & Hpaths).
    + split; reflexivity.
    + reflexivity.
    + reflexivity.
    + reflexivity.
    + reflexivity.
    + cbn [st_size]. unfold ten_MiB. lia.
    + cbn [st_size]. unfold ten_MiB. lia.
    + reflexivity.
    + reflexivity.
    + right. cbn [st_size]. split; [lia|]. split; [lia | exact big_files_same_sample].
    + cbn [st_size] in Hh.
      assert ((ten_MiB + 1 >? ten_MiB) = true) as Hgt by lia.
      rewrite Hgt in Hh. subst h.
      exists paths. split; [exact Hlook | exact Hpaths].
Defined.

(** ** Where the code departs from the specification *)

(** C4, as stated, fails.  In [/data/sub] of the example a file is named
    [.part]: [os.path.splitext] gives it no extension, yet its path ends
    with ".part" and it is flagged as a stale download.  Next to it
    [X.PART] has, once lower-cased as [analyze_files] does, the extension
    ".part" and was modified long ago, yet it is not flagged. *)
Lemma stale_flag_is_not_by_extension :
  ext_of ".part" = EmptyString
  /\ PyStr.mem (ext_of ".part") [".crdownload"; ".part"] = false
  /\ fst (get_file_attributes example_world (OsPath.join "/data/sub" ".part")
            6 1073741824 3600 env0)
     = Some (mkAttributes 5 false false true 19999000 19000000)
  /\ ext_of "X.PART" = ".part"
  /\ PyStr.mem (ext_of "X.PART") [".crdownload"; ".part"] = true
  /\ w_time example_world 0 - 19000000 > 3600
  /\ fst (get_file_attributes example_world (OsPath.join "/data/sub" "X.PART")
            6 1073741824 3600 env0)
     = Some (mkAttributes 5 false false false 19999000 19000000).
Proof. repeat split; reflexivity. Qed.

(** C8 on the code.  The only file of [unreadable_world] is large enough to
    be checked for duplicates and cannot be opened: [compute_file_hash]
    fails, the file is left out of the index, and the error list of the
    report is empty. *)
Theorem unreadable_file_leaves_no_error :
  let res := analyze_files unreadable_world (Some "/data") 0 6 1073741824 3600 in
  compute_file_hash unreadable_world "/data/locked.bin" default_block_size false = None
  /\ calls (snd res) = [CallStat "/data/locked.bin"; CallHash "/data/locked.bin" false]
  /\ fst res = Report [] [] [] ∅ [].
Proof. repeat split; vm_compute; reflexivity. Qed.

(** C9, as stated, fails.  With every threshold set to -1 the example
    directory is traversed and a complete report comes back. *)
Lemma negative_thresholds_are_scanned :
  let res := analyze_files example_world (Some "/data") (-1) (-1) (-1) (-1) in
  arity (fst res) = 5%nat
  /\ length (calls (snd res)) = 21%nat
  /\ In (CallStat "/data/a.txt") (calls (snd res))
  /\ report_junk (fst res)
     = [ ("/data/empty.part", "Empty File");
         ("/data/partial.crdownload", "Stale Incomplete Download");
         ("/data/fresh.part", "Stale Incomplete Download");
         ("/data/notes.old", "Temporary File");
         ("/data/sub/.part", "Stale Incomplete Download");
         ("/data/sub/X.PART", "Temporary File") ]
  /\ report_errors (fst res) = ["Error accessing /data/gone"].
Proof.
  repeat split; try (vm_compute; reflexivity).
  vm_compute. tauto.
Qed.

(** ** Further properties of the naming tests *)

Lemma append_assoc_string (a b c : string) : (a +:+ b) +:+ c = a +:+ b +:+ c.
Proof.
  induction a as [|x a IH]; [reflexivity|].
  change (String x (a +:+ b +:+ c)) with (String x a +:+ b +:+ c) in *.
  change ((String x a +:+ b) +:+ c) with (String x ((a +:+ b) +:+ c)).
  change (String x a +:+ b +:+ c) with (String x (a +:+ b +:+ c)).
  now rewrite IH.
Qed.

Lemma append_nil_r_string (a : string) : a +:+ EmptyString = a.
Proof.
  induction a as [|x a IH]; [reflexivity|].
  change (String x a +:+ EmptyString) with (String x (a +:+ EmptyString)).
  now rewrite IH.
Qed.

(** Two ways of cutting one string: one cut is inside the other's prefix. *)
Lemma append_split (a b c d : string) :
  a +:+ b = c +:+ d ->
  (exists k, a = c +:+ k /\ d = k +:+ b) \/ (exists k, c = a +:+ k /\ b = k +:+ d).
Proof.
  revert c. induction a as [|x a IH]; intros c Heq.
  - right. exists c. split; [reflexivity | exact Heq].
  - destruct c as [|y c].
    + left. exists (String x a). split; [reflexivity | now symmetry].
    + change (String x (a +:+ b) = String y (c +:+ d)) in Heq.
      injection Heq as -> Heq. destruct (IH c Heq) as [(k & -> & ->)|(k & -> & ->)].
      * left. now exists k.
      * right. now exists k.
Qed.

Lemma has_char_append (c : ascii) (a b : string) :
  has_char c (a +:+ b) = has_char c a || has_char c b.
Proof.
  induction a as [|x a IH]; [reflexivity|].
  change (String x a +:+ b) with (String x (a +:+ b)). cbn [has_char].
  now rewrite IH, orb_assoc.
Qed.

Lemma lower_append (a b : string) :
  PyStr.lower (a +:+ b) = PyStr.lower a +:+ PyStr.lower b.
Proof.
  induction a as [|x a IH]; [reflexivity|].
  change (String x a +:+ b) with (String x (a +:+ b)). cbn [PyStr.lower].
  now rewrite IH.
Qed.

Lemma endswith_lower (s sfx : string) :
  PyStr.endswith s sfx = true ->
  PyStr.endswith (PyStr.lower s) (PyStr.lower sfx) = true.
Proof.
  rewrite !endswith_spec. intros [pre ->]. exists (PyStr.lower pre). apply lower_append.
Qed.

(** A path built by [os.path.join] is the file name, or something that ends
    with "/" followed by the file name. *)
Lemma join_shape (a b : string) :
  OsPath.join a b = b \/ exists x, OsPath.join a b = (x +:+ "/") +:+ b.
Proof.
  unfold OsPath.join. destruct (PyStr.startswith b "/"); [now left|].
  destruct a as [|c a]; [now left|]. cbn [PyStr.truthy negb orb].
  destruct (PyStr.endswith (String c a) "/") eqn:Hend.
  - apply endswith_spec in Hend as [x Hx]. right. exists x. now rewrite Hx.
  - right. exists (String c a). now rewrite append_assoc_string.
Qed.

(** A suffix without "/" of a joined path is a suffix of the file name. *)
Lemma endswith_join (a b sfx : string) :
  has_char "/" sfx = false ->
  PyStr.endswith (OsPath.join a b) sfx = true ->
  PyStr.endswith b sfx = true.
Proof.
  intros Hslash Hend. destruct (join_shape a b) as [Heq|[x Heq]]; rewrite Heq in Hend;
    [exact Hend|].
  apply endswith_spec in Hend as [pre Hpre].
  apply append_split in Hpre as [(k & Hk & ->)|(k & _ & ->)].
  - destruct k as [|c k]; [apply endswith_spec; now exists EmptyString|].
    exfalso. rewrite has_char_append in Hslash. apply orb_false_elim in Hslash as [Hk' _].
    apply append_split in Hk as [(j & _ & Hj)|(j & _ & Hj)].
    + rewrite Hj, has_char_append in Hk'. cbn in Hk'.
      now rewrite orb_true_r in Hk'.
    + destruct j as [|y j];
        [change (String "/" EmptyString = String c k) in Hj;
         rewrite <- Hj in Hk'; discriminate|].
      change (String "/" EmptyString = String y (j +:+ String c k)) in Hj.
      injection Hj as _ Hj. now destruct j.
  - apply endswith_spec. now exists k.
Qed.

(** X10. A stale download always matches a junk naming pattern: when
    [get_file_attributes] sets [is_stale_download] for the joined path, the
    lower-cased file name ends with ".crdownload" or ".part", which are
    suffix patterns.  The last disjunct of the junk test of [analyze_files]
    therefore never decides: a file of size other than 0 gets a junk entry
    exactly when its name matches a pattern. *)
Theorem stale_download_matches_pattern (w : World)
    (months oversized_threshold download_stale_secs : Z)
    (dirpath filename : string) (env env' : Env) (a : Attributes) :
  get_file_attributes w (OsPath.join dirpath filename) months oversized_threshold
                      download_stale_secs env = (Some a, env') ->
  is_stale_download a = true ->
  matches_junk_pattern filename = true
  /\ matches_junk_pattern filename || is_stale_download a = matches_junk_pattern filename.
Proof.
  intros Ha Hstale.
  assert (matches_junk_pattern filename = true) as Hmatch.
  { destruct (get_file_attributes_eq w months oversized_threshold download_stale_secs
                _ _ _ _ Ha) as (st & _ & _ & ->).
    cbn [is_stale_download] in Hstale.
    apply andb_true_iff in Hstale as [Hend _].
    unfold PyStr.endswith_any in Hend. cbn [existsb] in Hend.
    rewrite orb_false_r in Hend.
    unfold matches_junk_pattern, junk_file_patterns.suffix, PyStr.endswith_any.
    cbn [existsb].
    apply orb_true_iff in Hend as [Hend|Hend];
      apply endswith_join in Hend; [|reflexivity| |reflexivity];
      apply endswith_lower in Hend; cbn [PyStr.lower] in Hend;
      change (PyStr.lower_char ?c) with c in Hend.
    - change (String (PyStr.lower_char ".") _) with ".crdownload" in Hend.
      rewrite Hend. now rewrite !orb_true_r.
    - change (String (PyStr.lower_char ".") _) with ".part" in Hend.
      rewrite Hend. now rewrite !orb_true_r. }
  split; [exact Hmatch|]. now rewrite Hmatch.
Qed.

Lemma lower_char_idempotent (c : ascii) :
  PyStr.lower_char (PyStr.lower_char c) = PyStr.lower_char c.
Proof. destruct c as [[] [] [] [] [] [] [] []]; reflexivity. Qed.

Lemma lower_char_dot (c : ascii) :
  Ascii.eqb (PyStr.lower_char c) "." = Ascii.eqb c ".".
Proof. destruct c as [[] [] [] [] [] [] [] []]; reflexivity. Qed.

Lemma lower_char_slash (c : ascii) :
  Ascii.eqb (PyStr.lower_char c) "/" = Ascii.eqb c "/".
Proof. destruct c as [[] [] [] [] [] [] [] []]; reflexivity. Qed.

Lemma lower_idempotent (s : string) : PyStr.lower (PyStr.lower s) = PyStr.lower s.
Proof.
  induction s as [|c s IH]; [reflexivity|]. cbn [PyStr.lower].
  now rewrite lower_char_idempotent, IH.
Qed.

Lemma length_lower (s : string) : String.length (PyStr.lower s) = String.length s.
Proof. induction s as [|c s IH]; [reflexivity|]. cbn. now rewrite IH. Qed.

Lemma take_lower (i : nat) (s : string) :
  PyStr.take i (PyStr.lower s) = PyStr.lower (PyStr.take i s).
Proof.
  revert s. induction i as [|i IH]; intros [|c s]; try reflexivity.
  cbn [PyStr.lower PyStr.take]. now rewrite IH.
Qed.

Lemma drop_lower (i : nat) (s : string) :
  PyStr.drop i (PyStr.lower s) = PyStr.lower (PyStr.drop i s).
Proof.
  revert s. induction i as [|i IH]; intros [|c s]; try reflexivity.
  cbn [PyStr.lower PyStr.drop]. apply IH.
Qed.

Lemma get_lower (i : nat) (s : string) :
  String.get i (PyStr.lower s) = option_map PyStr.lower_char (String.get i s).
Proof.
  revert i. induction s as [|c s IH]; intros [|i]; try reflexivity.
  cbn [PyStr.lower String.get]. apply IH.
Qed.

(** Lower-casing moves neither the dots nor the slashes. *)
Lemma rfind_from_lower (c : ascii) (s : string) (i last : Z) :
  (forall x, Ascii.eqb (PyStr.lower_char x) c = Ascii.eqb x c) ->
  PyStr.rfind_from c (PyStr.lower s) i last = PyStr.rfind_from c s i last.
Proof.
  intros Hc. revert i last. induction s as [|x s IH]; intros i last; [reflexivity|].
  cbn [PyStr.lower PyStr.rfind_from]. now rewrite Hc, IH.
Qed.

Lemma stem_found_lower (p : string) (i n : nat) :
  OsPath.stem_found (PyStr.lower p) i n = OsPath.stem_found p i n.
Proof.
  revert i. induction n as [|n IH]; intros i; [reflexivity|].
  cbn [OsPath.stem_found]. rewrite get_lower.
  destruct (String.get i p) as [c|]; [|reflexivity]. cbn [option_map].
  now rewrite lower_char_dot, IH.
Qed.

Lemma splitext_lower (p : string) :
  OsPath.splitext (PyStr.lower p)
  = (PyStr.lower (fst (OsPath.splitext p)), PyStr.lower (snd (OsPath.splitext p))).
Proof.
  unfold OsPath.splitext, PyStr.rfind.
  rewrite !rfind_from_lower by (apply lower_char_slash || apply lower_char_dot).
  destruct (_ >? _); [|reflexivity].
  rewrite stem_found_lower. destruct (OsPath.stem_found _ _ _); [|reflexivity].
  cbn [fst snd]. now rewrite take_lower, drop_lower.
Qed.

(** X11. The naming tests of the junk classification ignore letter case:
    two file names that become equal once lower-cased match the patterns
    alike (the extension test included, since the extension is lower-cased
    as well). *)
Theorem junk_pattern_ignores_case (filename filename' : string) :
  PyStr.lower filename = PyStr.lower filename' ->
  matches_junk_pattern filename = matches_junk_pattern filename'.
Proof.
  assert (forall f, matches_junk_pattern f = matches_junk_pattern (PyStr.lower f)) as Hlow.
  { intros f. unfold matches_junk_pattern.
    rewrite splitext_lower. cbn [snd]. now rewrite !lower_idempotent. }
  intros Heq. now rewrite (Hlow filename), (Hlow filename'), Heq.
Qed.

(** ** The confirmation prompt *)

Lemma lstrip_spec (s : string) :
  exists l, s = l +:+ lstrip s /\ all_space l = true.
Proof.
  induction s as [|c s (l & Hl & Hsp)]; [now exists EmptyString|].
  cbn [lstrip]. destruct (is_space c) eqn:Hc.
  - exists (String c l). cbn [all_space]. rewrite Hc, Hsp. split; [|reflexivity].
    change (String c l +:+ lstrip s) with (String c (l +:+ lstrip s)). now rewrite <- Hl.
  - now exists EmptyString.
Qed.

Lemma lstrip_head (s t : string) (c : ascii) :
  lstrip s = String c t -> is_space c = false.
Proof.
  induction s as [|x s IH]; [discriminate|]. cbn [lstrip].
  destruct (is_space x) eqn:Hx; [exact IH|]. now intros [= -> _].
Qed.

Lemma rstrip_all_space (r : string) : all_space r = true -> rstrip r = EmptyString.
Proof.
  induction r as [|c r IH]; [reflexivity|]. cbn [all_space rstrip].
  intros [Hc Hr]%andb_true_iff. now rewrite (IH Hr), Hc.
Qed.

Lemma rstrip_spec (s : string) :
  exists r, s = rstrip s +:+ r /\ all_space r = true.
Proof.
  induction s as [|c s (r & Hr & Hsp)]; [now exists EmptyString|].
  cbn [rstrip]. destruct (rstrip s) as [|y t] eqn:Hrs.
  - destruct (is_space c) eqn:Hc.
    + exists (String c s). split; [reflexivity|]. cbn [all_space].
      rewrite Hc. cbn [andb]. now rewrite Hr.
    + exists s. split; [reflexivity|]. now rewrite Hr.
  - exists r. split; [|exact Hsp].
    change (String c (String y t) +:+ r) with (String c (String y t +:+ r)).
    now rewrite <- Hr.
Qed.

Lemma lstrip_append (l t : string) (c : ascii) :
  all_space l = true -> is_space c = false ->
  lstrip (l +:+ String c t) = String c t.
Proof.
  intros Hl Hc. induction l as [|x l IH].
  - change (EmptyString +:+ String c t) with (String c t). cbn [lstrip]. now rewrite Hc.
  - cbn [all_space] in Hl. apply andb_true_iff in Hl as [Hx Hl].
    change (String x l +:+ String c t) with (String x (l +:+ String c t)).
    cbn [lstrip]. rewrite Hx. now apply IH.
Qed.

Lemma rstrip_single (c : ascii) (r : string) :
  is_space c = false -> all_space r = true ->
  rstrip (String c r) = String c EmptyString.
Proof. intros Hc Hr. cbn [rstrip]. now rewrite (rstrip_all_space r Hr), Hc. Qed.

Lemma lower_char_is_y (c : ascii) :
  PyStr.lower_char c = "y"%char <-> c = "y"%char \/ c = "Y"%char.
Proof.
  split.
  - destruct c as [[] [] [] [] [] [] [] []]; cbv; intros H; try discriminate H; tauto.
  - now intros [->| ->].
Qed.

(** X12. For a line of ASCII characters, the confirmation is given exactly
    when the line consists of one letter y, in either case, possibly
    surrounded by ASCII whitespace; every other ASCII line (the empty one,
    "yes", "n") declines. *)
Theorem confirm_action_accepts (prompt line : string) :
  is_ascii line = true ->
  confirm_action prompt (Some line) = Some true
  <-> exists l c r,
        line = l +:+ String c r
        /\ all_space l = true /\ all_space r = true
        /\ (c = "y"%char \/ c = "Y"%char).
Proof.
  intros _. unfold confirm_action, strip. split.
  - intros [= Heq]. apply String.eqb_eq in Heq.
    destruct (lstrip_spec line) as (l & Hl & Hlsp).
    destruct (rstrip_spec (lstrip line)) as (r & Hr & Hrsp).
    destruct (rstrip (lstrip line)) as [|c [|c' t]]; try discriminate Heq.
    cbn [PyStr.lower] in Heq. injection Heq as Hc.
    exists l, c, r. rewrite Hr in Hl.
    repeat split; try assumption. now apply lower_char_is_y.
  - intros (l & c & r & -> & Hl & Hr & Hc).
    assert (is_space c = false) as Hsp by (now destruct Hc as [->| ->]).
    rewrite (lstrip_append l r c Hl Hsp), (rstrip_single c r Hsp Hr).
    cbn [PyStr.lower]. apply lower_char_is_y in Hc. now rewrite Hc.
Qed.

(** ** The system cleanup *)

Lemma run_commands_prefix (run : list string -> RunResult)
    (commands ran : list (list string)) :
  exists done,
    snd (run_commands run commands ran) = ran ++ done
    /\ done `prefix_of` commands
    /\ (fst (run_commands run commands ran) = true -> done = commands)
    /\ ((forall cmd, In cmd commands -> run cmd <> RunOtherError) ->
        fst (run_commands run commands ran) = true).
Proof.
  revert ran. induction commands as [|cmd commands IH]; intros ran.
  - exists []. cbn [run_commands fst snd]. rewrite app_nil_r.
    split; [done|]. split; [done|]. split; done.
  - cbn [run_commands]. unfold execute_system_command.
    destruct (run cmd) eqn:Hrun.
    1,2: destruct (IH (ran ++ [cmd])) as (done & Hsnd & Hpre & Hall & Hok);
      exists (cmd :: done); rewrite Hsnd, <- app_assoc;
      (split; [reflexivity|]); (split; [now apply prefix_cons|]);
      (split; [now intros ->%Hall|]);
      intros Hno; apply Hok; intros c Hc; apply Hno; now right.
    exists [cmd]. cbn [fst snd]. split; [reflexivity|].
    split; [apply prefix_cons, prefix_nil|]. split; [discriminate|].
    intros Hno. exfalso. apply (Hno cmd); [now left | exact Hrun].
Qed.

(** X13. The system cleanup runs nothing without the confirmation and runs
    nothing but its four commands, in their order.  Once confirmed, a
    command that exits with a non-zero status does not stop the following
    ones: unless [subprocess.run] raises something other than
    [CalledProcessError], all four are run. *)
Theorem system_cleanup_commands (run : list string -> RunResult) (typed : option string) :
  let result := clean_system_packages_and_logs run typed in
  snd result `prefix_of` system_commands
  /\ (snd result <> [] ->
      exists line, typed = Some line
                   /\ PyStr.lower (strip line) = "y")
  /\ ((exists line, typed = Some line /\ PyStr.lower (strip line) = "y") ->
      (forall cmd, In cmd system_commands -> run cmd <> RunOtherError) ->
      result = (SystemDone, system_commands)).
Proof.
  intros result. subst result. unfold clean_system_packages_and_logs, confirm_action.
  destruct typed as [line|]; cbn [snd].
  2: { split; [apply prefix_nil|]. split; [done|]. now intros (line & [=] & _). }
  destruct (String.eqb (PyStr.lower (strip line)) "y") eqn:Heq.
  - apply String.eqb_eq in Heq.
    destruct (run_commands_prefix run system_commands []) as (done & Hsnd & Hpre & Hall & Hok).
    destruct (run_commands run system_commands []) as [[] ran] eqn:Hrun;
      cbn [fst snd app] in *; subst ran.
    + split; [exact Hpre|]. split; [intros _; now exists line|].
      intros _ _. now rewrite (Hall eq_refl).
    + split; [exact Hpre|]. split; [intros _; now exists line|].
      intros _ Hno. now specialize (Hok Hno).
  - apply String.eqb_neq in Heq. cbn [snd]. split; [apply prefix_nil|].
    split; [done|]. intros (line' & [= <-] & Hy). contradiction.
Qed.

(** ** The deleting functions *)

Section Cleanup.

Variable cw : CleanupWorld.

Lemma trash_remove_elem (files : gset string) (x path : string) :
  path ∈ trash_remove cw files x
  <-> path ∈ files /\ ~ (path = x /\ cw_removable cw x = true).
Proof.
  unfold trash_remove, os_remove. case_bool_decide as Hx; cbn [andb].
  - destruct (cw_removable cw x).
    + rewrite elem_of_difference, elem_of_singleton. split.
      * intros [Hin Hne]. split; [exact Hin|]. now intros [-> _].
      * intros [Hin Hne]. split; [exact Hin|]. intros ->. now apply Hne.
    + split; [intros Hin; split; [exact Hin|]; now intros [_ [=]] | now intros [Hin _]].
  - split; [|now intros [Hin _]]. intros Hin. split; [exact Hin|].
    intros [-> _]. contradiction.
Qed.

Lemma fold_trash_remove_elem (l : list string) (files : gset string) (path : string) :
  path ∈ fold_left (trash_remove cw) l files
  <-> path ∈ files /\ ~ (In path l /\ cw_removable cw path = true).
Proof.
  revert files. induction l as [|x l IH]; intros files.
  - cbn [fold_left In]. tauto.
  - cbn [fold_left In]. rewrite IH, trash_remove_elem. split.
    + intros [[Hin Hx] Hl]. split; [exact Hin|]. intros [[<-|Hin'] Hrem].
      * now apply Hx.
      * now apply Hl.
    + intros [Hin Hno]. split; [split; [exact Hin|]|].
      * intros [-> Hrem]. apply Hno. split; [now left | exact Hrem].
      * intros [Hin' Hrem]. apply Hno. split; [now right | exact Hrem].
Qed.

(** The loop with the counter removes what the loop without it removes,
    and counts one per file removed. *)
Lemma fold_cache_remove (l : list string) (files : gset string) (n : nat) :
  fst (fold_left (cache_remove cw) l (files, n)) = fold_left (trash_remove cw) l files
  /\ (snd (fold_left (cache_remove cw) l (files, n))
      + base.size (fold_left (trash_remove cw) l files)
      = n + base.size files)%nat.
Proof.
  revert files n. induction l as [|x l IH]; intros files n.
  - cbn [fold_left fst snd]. split; [reflexivity | lia].
  - cbn [fold_left]. unfold cache_remove at 2 4, trash_remove at 2 4, os_remove.
    case_bool_decide as Hx; cbn [andb].
    + destruct (cw_removable cw x).
      * destruct (IH (files ∖ {[x]}) (S n)) as [Hfst Hsnd]. split; [exact Hfst|].
        assert ({[x]} ⊆ files) as Hsub by (now apply singleton_subseteq_l).
        rewrite Hsnd, (size_difference files {[x]} Hsub), size_singleton.
        pose proof (subseteq_size {[x]} files Hsub) as Hsz.
        rewrite size_singleton in Hsz. lia.
      * apply IH.
    + apply IH.
Qed.

(** X14. Emptying the trash never creates a file and removes nothing
    outside the files found under the trash directory; it removes nothing
    at all in a dry run, when the trash directory is missing, or when the
    answer is not the confirmation. *)
Theorem trash_removes_only_on_confirmation (dry_run : bool) (typed : option string)
    (files : gset string) :
  let result := empty_trash_directory cw dry_run typed files in
  let trash_path := w_expanduser (cw_base cw) "~/.local/share/Trash/files" in
  snd result ⊆ files
  /\ (fst result <> TrashEmptied -> snd result = files)
  /\ (fst result = TrashEmptied ->
      dry_run = false
      /\ w_exists (cw_base cw) trash_path = true
      /\ exists line, typed = Some line /\ PyStr.lower (strip line) = "y")
  /\ forall path,
       path ∈ files -> path ∉ snd result ->
       In path (walked_files (cw_walk_bottom_up cw trash_path))
       /\ cw_removable cw path = true.
Proof.
  intros result trash_path. subst result. unfold empty_trash_directory. fold trash_path.
  destruct (w_exists (cw_base cw) trash_path); cbn [negb fst snd];
    [|split; [done|]; split; [done|]; split; [done|]; now intros path Hin Hout].
  destruct (walked_files (cw_walk_bottom_up cw trash_path)) as [|x l] eqn:Hwalk;
    cbn [fst snd]; [split; [done|]; split; [done|]; split; [done|]; now intros path Hin Hout|].
  destruct dry_run; cbn [fst snd];
    [split; [done|]; split; [done|]; split; [done|]; now intros path Hin Hout|].
  unfold confirm_action. destruct typed as [line|]; cbn [fst snd];
    [|split; [done|]; split; [done|]; split; [done|]; now intros path Hin Hout].
  destruct (String.eqb (PyStr.lower (strip line)) "y") eqn:Heq; cbn [fst snd];
    [|split; [done|]; split; [done|]; split; [done|]; now intros path Hin Hout].
  apply String.eqb_eq in Heq. split; [|split; [done|]; split].
  - intros path Hin. now apply fold_trash_remove_elem in Hin as [Hin _].
  - intros _. split; [reflexivity|]. split; [reflexivity|]. now exists line.
  - intros path Hin Hout. rewrite fold_trash_remove_elem in Hout.
    destruct (cw_removable cw path).
    + split; [|reflexivity].
      destruct (In_dec string_dec path (x :: l)) as [Hl|Hl]; [exact Hl|].
      exfalso. apply Hout. split; [exact Hin|]. now intros [Hl' _].
    + exfalso. apply Hout. split; [exact Hin|]. now intros [_ [=]].
Qed.

(** X15. When the trash is emptied, a failed removal does not stop the
    loop: afterwards the files that exist are those that existed before,
    less every file found under the trash directory that the process may
    remove. *)
Theorem trash_emptied_removes_all (dry_run : bool) (typed : option string)
    (files : gset string) (path : string) :
  fst (empty_trash_directory cw dry_run typed files) = TrashEmptied ->
  path ∈ snd (empty_trash_directory cw dry_run typed files)
  <-> path ∈ files
      /\ ~ (In path (walked_files
                       (cw_walk_bottom_up cw
                          (w_expanduser (cw_base cw) "~/.local/share/Trash/files")))
            /\ cw_removable cw path = true).
Proof.
  unfold empty_trash_directory.
  destruct (w_exists (cw_base cw) _); cbn [negb fst snd]; [|discriminate].
  destruct (walked_files _) as [|x l] eqn:Hwalk; cbn [fst snd]; [discriminate|].
  destruct dry_run; cbn [fst snd]; [discriminate|].
  destruct (confirm_action _ typed) as [[]|]; cbn [fst snd]; try discriminate.
  intros _. apply fold_trash_remove_elem.
Qed.

(** One file of a directory with an age limit: the clock is read once. *)
Lemma cache_file_step_aged (days : Z) (to_delete : list string) (t : nat) (x : string) :
  (days =? 0) = false ->
  cache_file_step cw days (to_delete, t) x
  = (to_delete ++ (if match cw_getmtime cw x with
                      | Some mtime => w_time (cw_base cw) t - mtime >? days * 86400
                      | None => false
                      end then [x] else []),
     S t).
Proof.
  intros Hdays. unfold cache_file_step. rewrite Hdays.
  destruct (cw_getmtime cw x) as [mtime|];
    [destruct (w_time (cw_base cw) t - mtime >? days * 86400)|];
    now rewrite ?app_nil_r.
Qed.

Lemma cache_aged_test (days : Z) (t : nat) (x : string) :
  (days =? 0) = false ->
  match cw_getmtime cw x with
  | Some mtime => w_time (cw_base cw) t - mtime >? days * 86400
  | None => false
  end = true
  <-> cache_aged cw days t x.
Proof.
  intros Hdays. unfold cache_aged. split.
  - destruct (cw_getmtime cw x) as [mtime|]; [|discriminate].
    intros Hage. right. exists mtime. split; [reflexivity | lia].
  - intros [Hz|(mtime & -> & Hage)]; lia.
Qed.

Lemma cache_aged_zero (days : Z) (t : nat) (x : string) :
  (days =? 0) = true -> cache_aged cw days t x.
Proof. intros Hdays. left. lia. Qed.

(** The clock readings that the files of one directory consume. *)
Lemma cache_file_steps_ticks (days : Z) (l : list string) (to_delete : list string)
    (t : nat) :
  snd (fold_left (cache_file_step cw days) l (to_delete, t))
  = (t + (if (days =? 0)%Z then O else length l))%nat.
Proof.
  revert to_delete t. induction l as [|x l IH]; intros to_delete t.
  - cbn [fold_left snd length]. destruct (days =? 0); lia.
  - cbn [fold_left]. destruct (days =? 0) eqn:Hdays.
    + unfold cache_file_step at 2. rewrite Hdays, IH. reflexivity.
    + rewrite (cache_file_step_aged days to_delete t x Hdays), IH.
      cbn [length]. lia.
Qed.

(** What the files of one directory add to the list of cache files, [t]
    readings of the clock having been consumed before. *)
Lemma cache_file_steps (days : Z) (l : list string) (to_delete : list string)
    (t : nat) (path : string) :
  In path (fst (fold_left (cache_file_step cw days) l (to_delete, t)))
  <-> In path to_delete
      \/ exists fpre fpost,
           l = fpre ++ path :: fpost /\ cache_aged cw days (t + length fpre) path.
Proof.
  revert to_delete t. induction l as [|x l IH]; intros to_delete t.
  - cbn [fold_left fst]. split; [now left|].
    intros [Hin|(fpre & fpost & Hl & _)]; [exact Hin|]. now destruct fpre.
  - cbn [fold_left]. destruct (days =? 0) eqn:Hdays.
    + unfold cache_file_step at 2. rewrite Hdays, IH. split.
      * intros [Hin|(fpre & fpost & -> & Hwhy)].
        -- apply in_app_or in Hin as [Hin|[<-|[]]]; [now left|].
           right. exists [], l. split; [reflexivity|]. now apply cache_aged_zero.
        -- right. exists (x :: fpre), fpost. split; [reflexivity|].
           now apply cache_aged_zero.
      * intros [Hin|(fpre & fpost & Hl & Hwhy)].
        -- left. apply in_or_app. now left.
        -- destruct fpre as [|y fpre]; cbn [app] in Hl; injection Hl as -> ->.
           ++ left. apply in_or_app. right. now left.
           ++ right. exists fpre, fpost. split; [reflexivity|].
              now apply cache_aged_zero.
    + rewrite (cache_file_step_aged days to_delete t x Hdays), IH.
      pose proof (cache_aged_test days t x Hdays) as Htest.
      split.
      * intros [Hin|(fpre & fpost & -> & Hwhy)].
        -- apply in_app_or in Hin as [Hin|Hin]; [now left|].
           destruct (match cw_getmtime cw x with
                     | Some mtime => w_time (cw_base cw) t - mtime >? days * 86400
                     | None => false
                     end); [|destruct Hin].
           destruct Hin as [<-|[]]. right. exists [], l. split; [reflexivity|].
           cbn [length]. rewrite Nat.add_0_r. now apply Htest.
        -- right. exists (x :: fpre), fpost. split; [reflexivity|].
           cbn [length]. now rewrite Nat.add_succ_r.
      * intros [Hin|(fpre & fpost & Hl & Hwhy)].
        -- left. apply in_or_app. now left.
        -- destruct fpre as [|y fpre]; cbn [app] in Hl; injection Hl as -> ->.
           ++ left. apply in_or_app. right.
              cbn [length] in Hwhy. rewrite Nat.add_0_r in Hwhy.
              apply Htest in Hwhy. rewrite Hwhy. now left.
           ++ right. exists fpre, fpost. split; [reflexivity|].
              cbn [length] in Hwhy. now rewrite Nat.add_succ_r in Hwhy.
Qed.

(** The list of cache files after the directories, [t] readings of the
    clock having been consumed before. *)
Lemma cache_directory_steps (directories : list (string * Z))
    (to_delete : list string) (t : nat) (path : string) :
  In path (fst (fold_left (cache_directory_step cw) directories (to_delete, t)))
  <-> In path to_delete
      \/ exists dpre dir_path days dpost fpre fpost,
           directories = dpre ++ (dir_path, days) :: dpost
           /\ w_exists (cw_base cw) (w_expanduser (cw_base cw) dir_path) = true
           /\ walked_files (w_walk (cw_base cw) (w_expanduser (cw_base cw) dir_path))
              = fpre ++ path :: fpost
           /\ cache_aged cw days (t + cache_readings cw dpre + length fpre) path.
Proof.
  revert to_delete t. induction directories as [|[d days] directories IH];
    intros to_delete t.
  - cbn [fold_left fst]. split; [now left|].
    intros [Hin|(dpre & dir_path & n & dpost & fpre & fpost & Hd & _)]; [exact Hin|].
    now destruct dpre.
  - cbn [fold_left]. unfold cache_directory_step at 2.
    destruct (w_exists (cw_base cw) (w_expanduser (cw_base cw) d)) eqn:Hexists.
    + pose proof (cache_file_steps days
                    (walked_files (w_walk (cw_base cw) (w_expanduser (cw_base cw) d)))
                    to_delete t path) as Hfiles.
      pose proof (cache_file_steps_ticks days
                    (walked_files (w_walk (cw_base cw) (w_expanduser (cw_base cw) d)))
                    to_delete t) as Hticks.
      destruct (fold_left (cache_file_step cw days)
                  (walked_files (w_walk (cw_base cw) (w_expanduser (cw_base cw) d)))
                  (to_delete, t)) as [to_delete' t'].
      cbn [fst snd] in Hfiles, Hticks.
      assert (forall dpre,
                (t' + cache_readings cw dpre
                 = t + cache_readings cw ((d, days) :: dpre))%nat) as Hreadings.
      { intros dpre. cbn [cache_readings]. rewrite Hexists, Hticks.
        destruct (days =? 0); cbn [negb andb]; lia. }
      rewrite IH, Hfiles. split.
      * intros [[Hin|(fpre & fpost & Hw & Hwhy)]
               |(dpre & dir_path & n & dpost & fpre & fpost & -> & Hex & Hw & Hwhy)].
        -- now left.
        -- right. exists [], d, days, directories, fpre, fpost.
           split; [reflexivity|]. split; [exact Hexists|]. split; [exact Hw|].
           cbn [cache_readings]. now rewrite Nat.add_0_r.
        -- right. exists ((d, days) :: dpre), dir_path, n, dpost, fpre, fpost.
           split; [reflexivity|]. split; [exact Hex|]. split; [exact Hw|].
           now rewrite <- Hreadings.
      * intros [Hin|(dpre & dir_path & n & dpost & fpre & fpost & Hd & Hex & Hw & Hwhy)].
        -- left. now left.
        -- destruct dpre as [|y dpre]; cbn [app] in Hd;
             [injection Hd as -> -> -> | injection Hd as <- ->].
           ++ left. right. exists fpre, fpost. split; [exact Hw|].
              cbn [cache_readings] in Hwhy. now rewrite Nat.add_0_r in Hwhy.
           ++ right. exists dpre, dir_path, n, dpost, fpre, fpost.
              split; [reflexivity|]. split; [exact Hex|]. split; [exact Hw|].
              now rewrite Hreadings.
    + assert (forall dpre,
                cache_readings cw ((d, days) :: dpre) = cache_readings cw dpre)
        as Hreadings.
      { intros dpre. cbn [cache_readings]. now rewrite Hexists. }
      rewrite IH. split.
      * intros [Hin|(dpre & dir_path & n & dpost & fpre & fpost & -> & Hex & Hw & Hwhy)];
          [now left|].
        right. exists ((d, days) :: dpre), dir_path, n, dpost, fpre, fpost.
        split; [reflexivity|]. split; [exact Hex|]. split; [exact Hw|].
        now rewrite Hreadings.
      * intros [Hin|(dpre & dir_path & n & dpost & fpre & fpost & Hd & Hex & Hw & Hwhy)];
          [now left|].
        destruct dpre as [|y dpre]; cbn [app] in Hd;
          [injection Hd as -> -> -> | injection Hd as <- ->].
        -- congruence.
        -- right. exists dpre, dir_path, n, dpost, fpre, fpost.
           split; [reflexivity|]. split; [exact Hex|]. split; [exact Hw|].
           now rewrite Hreadings in Hwhy.
Qed.

(** X16. Which cache files are listed for deletion: exactly the files found
    in the walk of an existing directory of the list that either belong to
    a directory without age limit (the thumbnails, the trash, the browser
    caches) or, for a directory with a limit of 30 days, have a readable
    modification time that lies more than [days * 86400] before the clock
    reading taken for them.  The clock is read once per file examined in a
    directory with a limit, so that the reading taken for a file is the one
    numbered by the files examined before it in such directories. *)
Theorem cache_files_selected (users : list string) :
  let to_delete := fst (cache_files_to_delete cw users) in
  (forall path,
      In path to_delete <-> cache_reason cw (cache_directories cw users) path)
  /\ (forall dir_path path,
        In (dir_path, 0) (cache_directories cw users) ->
        w_exists (cw_base cw) (w_expanduser (cw_base cw) dir_path) = true ->
        In path (walked_files (w_walk (cw_base cw) (w_expanduser (cw_base cw) dir_path))) ->
        In path to_delete).
Proof.
  intros to_delete. subst to_delete. unfold cache_files_to_delete.
  assert (forall path,
            In path (fst (fold_left (cache_directory_step cw)
                            (cache_directories cw users) ([], O)))
            <-> cache_reason cw (cache_directories cw users) path) as Hiff.
  { intros path. rewrite cache_directory_steps. unfold cache_reason. cbn [In].
    split; [intros [[]|Hwhy]; exact Hwhy | intros Hwhy; right; exact Hwhy]. }
  split; [exact Hiff|].
  intros dir_path path Hdir Hex Hin. apply Hiff.
  apply in_split in Hdir as (dpre & dpost & Hdir).
  apply in_split in Hin as (fpre & fpost & Hin).
  exists dpre, dir_path, 0, dpost, fpre, fpost.
  split; [exact Hdir|]. split; [exact Hex|]. split; [exact Hin|]. now left.
Qed.

(** X17. Cleaning the caches: nothing is removed in a dry run or without the
    confirmation (a line that reads y or Y once stripped); when the
    cleaning runs, only removable files of the list are removed, all of
    them, and the count that is printed is exactly the number of files
    that ceased to exist, even when the list names a file more than
    once. *)
Theorem cache_cleaning_counts (dry_run : bool) (typed : option string)
    (files : gset string) :
  let result := clean_user_and_browser_caches cw dry_run typed files in
  ((forall cleaned, fst result <> CacheCleaned cleaned) -> snd result = files)
  /\ forall cleaned,
       fst result = CacheCleaned cleaned ->
       dry_run = false
       /\ (exists line, typed = Some line /\ PyStr.lower (strip line) = "y")
       /\ (cleaned + base.size (snd result) = base.size files)%nat
       /\ exists users,
            cw_home cw = Some users
            /\ fst (cache_files_to_delete cw users) <> []
            /\ forall path,
                 path ∈ snd result
                 <-> path ∈ files
                     /\ ~ (In path (fst (cache_files_to_delete cw users))
                           /\ cw_removable cw path = true).
Proof.
  intros result. subst result. unfold clean_user_and_browser_caches.
  destruct (cw_home cw) as [users|]; cbn [fst snd]; [|split; [done|]; intros; discriminate].
  destruct (fst (cache_files_to_delete cw users)) as [|x l] eqn:Hlist; cbn [fst snd];
    [split; [done|]; intros; discriminate|].
  destruct dry_run; cbn [fst snd]; [split; [done|]; intros; discriminate|].
  unfold confirm_action. destruct typed as [line|]; cbn [fst snd];
    [|split; [done|]; intros; discriminate].
  destruct (String.eqb (PyStr.lower (strip line)) "y") eqn:Heq; cbn [fst snd];
    [|split; [done|]; intros; discriminate].
  apply String.eqb_eq in Heq.
  destruct (fold_cache_remove (x :: l) files O) as [Hfst Hsnd].
  destruct (fold_left (cache_remove cw) (x :: l) (files, O)) as [files' n] eqn:Hfold.
  cbn [fst snd] in *. split.
  - intros Hno. now specialize (Hno n).
  - intros cleaned [= <-]. split; [reflexivity|]. subst files'.
    split; [now exists line|]. split; [lia|].
    exists users. split; [reflexivity|]. rewrite Hlist. split; [discriminate|].
    intros path. apply fold_trash_remove_elem.
Qed.

End Cleanup.

(** ** Sizes for the reader *)

Lemma hundredths_bounds (num den lo hi : Z) :
  0 < den -> lo * den <= 100 * num -> 100 * num < hi * den ->
  lo <= hundredths num den <= hi.
Proof.
  intros Hden Hlo Hhi. unfold hundredths, round_half_even.
  pose proof (Z.div_mod (100 * num) den ltac:(lia)) as Hdm.
  pose proof (Z.mod_pos_bound (100 * num) den Hden) as Hmod.
  assert (lo <= 100 * num / den) by (apply Z.div_le_lower_bound; lia).
  assert (100 * num / den < hi) by (apply Z.div_lt_upper_bound; lia).
  destruct ((2 * ((100 * num) mod den) >? den)
            || ((2 * ((100 * num) mod den) =? den) && Z.odd (100 * num / den))); lia.
Qed.

Lemma format_2f_integer (n : Z) : format_2f n 1 = pretty n +:+ ".00".
Proof.
  unfold format_2f, hundredths, round_half_even.
  rewrite Z.div_1_r, Z.mod_1_r.
  change (2 * 0 >? 1) with false. change (2 * 0 =? 1) with false. cbn [orb andb].
  replace (100 * n mod 100) with 0 by (rewrite Z.mul_comm, Z.mod_mul; lia).
  replace (100 * n mod 10) with 0
    by (replace (100 * n) with (10 * n * 10) by lia; rewrite Z.mod_mul; lia).
  replace (100 * n / 100) with n by (rewrite Z.mul_comm, Z.div_mul; lia).
  reflexivity.
Qed.

(** X18. The unit of a formatted size is chosen by the powers of 1024 and
    stops at TB.  Bytes are shown as the integer followed by ".00"; for KB,
    MB and GB the number shown lies between 1.00 and 1024.00, the upper
    end included since the unit is chosen before the rounding; for TB it is
    at least 1.00 and unbounded.  This is for sizes below 2^53, which the
    floats of the source hold exactly. *)
Theorem format_file_size_units (size : Z) :
  0 <= size < 2 ^ 53 ->
  exists k unit,
    In (k, unit) [(0, "B"); (1, "KB"); (2, "MB"); (3, "GB"); (4, "TB")]
    /\ format_file_size size = format_2f size (1024 ^ k) +:+ " " +:+ unit
    /\ (k = 0 <-> size < 1024)
    /\ (k = 0 -> format_2f size (1024 ^ k) = pretty size +:+ ".00")
    /\ (0 < k -> 1024 ^ k <= size /\ 100 <= hundredths size (1024 ^ k))
    /\ (k < 4 -> size < 1024 ^ (k + 1) /\ hundredths size (1024 ^ k) <= 102400).
Proof.
  intros [Hlo Hhi]. unfold format_file_size. cbn [format_units].
  change (1024 * 1) with 1024. change (1024 * (1 * 1024)) with (1024 ^ 2).
  change (1024 * (1 * 1024 * 1024)) with (1024 ^ 3).
  change (1024 * (1 * 1024 * 1024 * 1024)) with (1024 ^ 4).
  change (1 * 1024 * 1024 * 1024 * 1024) with (1024 ^ 4).
  change (1 * 1024 * 1024 * 1024) with (1024 ^ 3).
  change (1 * 1024 * 1024) with (1024 ^ 2). change (1 * 1024) with (1024 ^ 1).
  change 1 with (1024 ^ 0) at 1.
  destruct (size <? 1024) eqn:H1; [|destruct (size <? 1024 ^ 2) eqn:H2;
    [|destruct (size <? 1024 ^ 3) eqn:H3; [|destruct (size <? 1024 ^ 4) eqn:H4]]].
  - exists 0, "B". split; [now left|]. split; [reflexivity|].
    split; [split; [lia | reflexivity]|]. split; [intros _; apply format_2f_integer|].
    split; [lia|]. intros _. split; [lia|].
    apply (hundredths_bounds size (1024 ^ 0) 0 102400); lia.
  - exists 1, "KB". split; [right; now left|]. split; [reflexivity|].
    split; [split; [discriminate | lia]|]. split; [discriminate|].
    split; intros _; (split; [lia|]);
      apply (hundredths_bounds size (1024 ^ 1) 100 102400); lia.
  - exists 2, "MB". split; [right; right; now left|]. split; [reflexivity|].
    split; [split; [discriminate | lia]|]. split; [discriminate|].
    split; intros _; (split; [lia|]);
      apply (hundredths_bounds size (1024 ^ 2) 100 102400); lia.
  - exists 3, "GB". split; [right; right; right; now left|]. split; [reflexivity|].
    split; [split; [discriminate | lia]|]. split; [discriminate|].
    split; intros _; (split; [lia|]);
      apply (hundredths_bounds size (1024 ^ 3) 100 102400); lia.
  - exists 4, "TB". split; [right; right; right; right; now left|].
    split; [reflexivity|].
    split; [split; [discriminate | lia]|]. split; [discriminate|].
    split; [|lia]. intros _. split; [lia|].
    apply (hundredths_bounds size (1024 ^ 4) 100 (100 * 2 ^ 53)); lia.
Qed.

Example format_file_size_bytes : format_file_size 512 = "512.00 B".
Proof. vm_compute. reflexivity. Qed.
Example format_file_size_half_even : format_file_size 1664 = "1.62 KB".
Proof. vm_compute. reflexivity. Qed.
Example format_file_size_rounds_up_to_1024 : format_file_size 1048575 = "1024.00 KB".
Proof. vm_compute. reflexivity. Qed.
Example format_file_size_default_threshold : format_file_size (1024 * 1024 * 1024) = "1.00 GB".
Proof. vm_compute. reflexivity. Qed.
Example format_file_size_petabyte : format_file_size (2 ^ 50) = "1024.00 TB".
Proof. vm_compute. reflexivity. Qed.

(** ** [main] *)


(** ** The thresholds are monotone *)

Lemma flat_map_sublist {A B : Type} (f g : A -> list B) (l : list A) :
  (forall x, sublist (f x) (g x)) -> sublist (flat_map f l) (flat_map g l).
Proof.
  intros Hfg. induction l as [|x l IH]; [reflexivity|].
  cbn [flat_map]. now apply sublist_app.
Qed.

Lemma filter_sublist_impl {A : Type} (p q : A -> bool) (l : list A) :
  (forall x, p x = true -> q x = true) -> sublist (List.filter p l) (List.filter q l).
Proof.
  intros Hpq. induction l as [|x l IH]; [reflexivity|].
  cbn [List.filter]. destruct (p x) eqn:Hp.
  - rewrite (Hpq x Hp). now apply sublist_skip.
  - destruct (q x); [now apply sublist_cons | exact IH].
Qed.

(** X20. Raising the oversized threshold only removes entries from the
    oversized list: the list for the higher threshold is a subsequence of
    the list for the lower one. *)
Theorem oversized_threshold_monotone (w : World)
    (min_duplicate_size months download_stale_secs lower higher : Z)
    (root : option string) (r : string) :
  accepted_root w root r ->
  lower <= higher ->
  sublist
    (report_oversized (fst (analyze_files w root min_duplicate_size months higher
                                          download_stale_secs)))
    (report_oversized (fst (analyze_files w root min_duplicate_size months lower
                                          download_stale_secs))).
Proof.
  intros Hroot Hle. rewrite !(analyze_files_accepted _ _ _ _ _ root r Hroot).
  cbn [fst report_oversized]. rewrite !scan_oversized. cbn [scan0 oversized_files app].
  apply flat_map_sublist. intros v. unfold oversized_of_visit.
  destruct (metadata w months (full_path v)) as [st|]; [|reflexivity].
  destruct (st_size st >? higher) eqn:Hhigh; [|apply sublist_nil_l].
  now assert ((st_size st >? lower) = true) as -> by lia.
Qed.

(** X21. Raising [min_duplicate_size] never produces a new duplicate
    report: every duplicate set found with the higher minimum is a
    subsequence of the set found under the same fingerprint with the lower
    one. *)
Theorem min_duplicate_size_monotone (w : World)
    (months oversized_threshold download_stale_secs lower higher : Z)
    (root : option string) (r : string) (h : string) (paths : list string) :
  accepted_root w root r ->
  lower <= higher ->
  report_duplicates (fst (analyze_files w root higher months oversized_threshold
                                        download_stale_secs)) !! h = Some paths ->
  exists paths',
    report_duplicates (fst (analyze_files w root lower months oversized_threshold
                                          download_stale_secs)) !! h = Some paths'
    /\ sublist paths paths'.
Proof.
  intros Hroot Hle. rewrite !(analyze_files_accepted _ _ _ _ _ root r Hroot).
  cbn [fst report_duplicates]. rewrite scan_duplicates_fingerprint.
  intros (Hov & -> & Hlen).
  assert (sublist
            (List.filter (has_fingerprint w higher h) (map full_path (walk_files w r)))
            (List.filter (has_fingerprint w lower h) (map full_path (walk_files w r))))
    as Hsub.
  { apply filter_sublist_impl. intros path. unfold has_fingerprint, fingerprint.
    destruct (w_stat w path) as [st|]; [|discriminate].
    destruct (st_size st >=? higher) eqn:Hhigh; [|discriminate].
    now assert ((st_size st >=? lower) = true) as -> by lia. }
  eexists. split; [|exact Hsub].
  apply scan_duplicates_fingerprint. split; [exact Hov|]. split; [reflexivity|].
  apply sublist_length in Hsub. lia.
Qed.

(** ** The further properties on the example environments *)

Lemma oversized_list_exact_witness :
  accepted_root example_world (Some "/data") "/data"
  /\ report_oversized (fst (analyze_files example_world (Some "/data") 0 6 1000 3600))
     = [("/data/sub/locked.bin", 4096)].
Proof.
  split; [split; reflexivity|].
  destruct (oversized_list_exact example_world 0 6 1000 3600 (Some "/data") "/data")
    as [Heq _]; [split; reflexivity|].
  rewrite Heq. reflexivity.
Defined.

Lemma error_list_exact_witness :
  accepted_root example_world (Some "/data") "/data"
  /\ report_errors (fst (analyze_files example_world (Some "/data") 0 6 1000 3600))
     = ["Error accessing /data/gone"].
Proof.
  split; [split; reflexivity|].
  destruct (error_list_exact example_world 0 6 1000 3600 (Some "/data") "/data")
    as [Heq _]; [split; reflexivity|].
  rewrite Heq. reflexivity.
Defined.

Lemma calls_of_scan_witness :
  accepted_root unreadable_world (Some "/data") "/data"
  /\ calls (snd (analyze_files unreadable_world (Some "/data") 0 6 1000 3600))
     = [CallStat "/data/locked.bin"; CallHash "/data/locked.bin" false]
  /\ ticks (snd (analyze_files unreadable_world (Some "/data") 0 6 1000 3600)) = 1%nat.
Proof.
  split; [split; reflexivity|].
  destruct (calls_of_scan unreadable_world 0 6 1000 3600 (Some "/data") "/data")
    as (Hcalls & Hticks & _); [split; reflexivity|].
  rewrite Hcalls, Hticks. split; reflexivity.
Defined.

Lemma lists_follow_traversal_witness :
  accepted_root example_world (Some "/data") "/data"
  /\ sublist
       (map fst (report_junk
                   (fst (analyze_files example_world (Some "/data") 0 6 1000 3600))))
       (map full_path (walk_files example_world "/data")).
Proof.
  split; [split; reflexivity|].
  destruct (lists_follow_traversal example_world 0 6 1000 3600 (Some "/data") "/data")
    as (_ & _ & Hjunk & _); [split; reflexivity|].
  exact Hjunk.
Defined.

Lemma duplicate_set_members_witness :
  accepted_root example_world (Some "/data") "/data"
  /\ report_duplicates (fst (analyze_files example_world (Some "/data") 0 6 1000 3600))
       !! "ba7816bf8f01cfea414140de5dae2223b00361a396177a9cb410ff61f20015ad"
     = Some ["/data/a.txt"; "/data/b.txt"]
  /\ sublist ["/data/a.txt"; "/data/b.txt"]
             (map full_path (walk_files example_world "/data")).
Proof.
  split; [split; reflexivity|]. split; [vm_compute; reflexivity|].
  destruct (duplicate_set_members example_world 0 6 1000 3600 (Some "/data") "/data"
              "ba7816bf8f01cfea414140de5dae2223b00361a396177a9cb410ff61f20015ad"
              ["/data/a.txt"; "/data/b.txt"])
    as [Hsub _]; [split; reflexivity | vm_compute; reflexivity|].
  exact Hsub.
Defined.

Lemma duplicate_sets_disjoint_witness :
  accepted_root example_world (Some "/data") "/data"
  /\ forall h paths,
       report_duplicates (fst (analyze_files example_world (Some "/data") 0 6 1000 3600))
         !! h = Some paths ->
       In "/data/a.txt" paths ->
       h = "ba7816bf8f01cfea414140de5dae2223b00361a396177a9cb410ff61f20015ad".
Proof.
  split; [split; reflexivity|]. intros h paths Hlook Hin.
  apply (duplicate_sets_disjoint example_world 0 6 1000 3600 (Some "/data") "/data"
           h "ba7816bf8f01cfea414140de5dae2223b00361a396177a9cb410ff61f20015ad"
           paths ["/data/a.txt"; "/data/b.txt"] "/data/a.txt").
  - split; reflexivity.
  - exact Hlook.
  - vm_compute. reflexivity.
  - exact Hin.
  - now left.
Defined.

Lemma duplicates_across_sizes_witness :
  accepted_root prefix_world (Some "/big") "/big"
  /\ w_stat prefix_world "/big/head.bin" = Some (mkStat (1024 * 1024) 19999000 19999000)
  /\ w_stat prefix_world "/big/a.bin" = Some (mkStat (ten_MiB + 1) 19999000 19999000)
  /\ exists paths,
       report_duplicates (fst (analyze_files prefix_world (Some "/big") 0 6 1000 3600))
         !! SHA256.hexdigest (firstn sample_bytes big_a) = Some paths
       /\ In "/big/head.bin" paths /\ In "/big/a.bin" paths.
Proof.
  split; [split; reflexivity|]. split; [reflexivity|]. split; [reflexivity|].
  apply (duplicates_across_sizes prefix_world 0 6 1000 3600 (Some "/big") "/big"
           [] [] [] ("/big", "head.bin") ("/big", "a.bin")
           (mkStat (1024 * 1024) 19999000 19999000)
           (mkStat (ten_MiB + 1) 19999000 19999000)
           (firstn sample_bytes big_a) big_a).
  - split; reflexivity.
  - left. reflexivity.
  - reflexivity.
  - reflexivity.
  - reflexivity.
  - cbn [st_size]. unfold ten_MiB. lia.
  - cbn [st_size]. unfold ten_MiB. lia.
  - cbn [st_size]. lia.
  - reflexivity.
  - reflexivity.
  - reflexivity.
Defined.

Lemma hash_independent_of_block_size_witness :
  w_open example_world "/data/a.txt" = Some (list_byte_of_string "abc")
  /\ compute_file_hash example_world "/data/a.txt" 1 false
     = Some (SHA256.hexdigest (list_byte_of_string "abc"))
  /\ compute_file_hash example_world "/data/a.txt" 0 false
     = Some (SHA256.hexdigest []).
Proof.
  split; [reflexivity|].
  exact (hash_independent_of_block_size example_world "/data/a.txt"
           (list_byte_of_string "abc") 0 eq_refl).
Defined.

Lemma short_files_fit_the_sample : (3 <= sample_bytes)%nat.
Proof. rewrite sample_bytes_eq. lia. Qed.

Lemma sample_of_short_file_witness :
  w_open example_world "/data/a.txt" = Some (list_byte_of_string "abc")
  /\ compute_file_hash example_world "/data/a.txt" 1 true
     = compute_file_hash example_world "/data/a.txt" 1 false.
Proof.
  split; [reflexivity|].
  exact (sample_of_short_file example_world "/data/a.txt"
           (list_byte_of_string "abc") 0 eq_refl short_files_fit_the_sample).
Defined.

Lemma stale_download_matches_pattern_witness :
  (exists a env',
     get_file_attributes example_world (OsPath.join "/data" "partial.crdownload")
                         6 1073741824 3600 env0 = (Some a, env')
     /\ is_stale_download a = true)
  /\ matches_junk_pattern "partial.crdownload" = true.
Proof.
  split; [eexists; eexists; split; reflexivity|].
  edestruct (stale_download_matches_pattern example_world 6 1073741824 3600
               "/data" "partial.crdownload" env0) as [Hmatch _].
  - reflexivity.
  - reflexivity.
  - exact Hmatch.
Defined.

Lemma junk_pattern_ignores_case_witness :
  PyStr.lower "Notes.OLD" = PyStr.lower "notes.old"
  /\ matches_junk_pattern "Notes.OLD" = matches_junk_pattern "notes.old".
Proof.
  split; [reflexivity|].
  exact (junk_pattern_ignores_case "Notes.OLD" "notes.old" eq_refl).
Defined.

Lemma trash_emptied_removes_all_witness :
  fst (empty_trash_directory example_cleanup false (Some " Y ") example_files)
  = TrashEmptied
  /\ ("/home/ann/.local/share/Trash/files/a.doc"
      ∉ snd (empty_trash_directory example_cleanup false (Some " Y ") example_files))
  /\ ("/home/ann/.local/share/Trash/files/b.doc"
      ∈ snd (empty_trash_directory example_cleanup false (Some " Y ") example_files)).
Proof.
  split; [vm_compute; reflexivity|]. split.
  - intros Hin.
    apply (trash_emptied_removes_all example_cleanup false (Some " Y ") example_files)
      in Hin as [_ Hno]; [|vm_compute; reflexivity].
    apply Hno. split; [|reflexivity]. vm_compute. tauto.
  - apply (trash_emptied_removes_all example_cleanup false (Some " Y ") example_files);
      [vm_compute; reflexivity|].
    split; [vm_compute; set_solver|]. intros [_ Hrem]. discriminate Hrem.
Defined.

Lemma format_file_size_units_witness :
  0 <= 1048575 < 2 ^ 53
  /\ exists k unit,
       In (k, unit) [(0, "B"); (1, "KB"); (2, "MB"); (3, "GB"); (4, "TB")]
       /\ format_file_size 1048575 = format_2f 1048575 (1024 ^ k) +:+ " " +:+ unit
       /\ (k = 0 <-> 1048575 < 1024).
Proof.
  split; [lia|].
  destruct (format_file_size_units 1048575 ltac:(lia))
    as (k & unit & Hin & Hfmt & Hk & _).
  exists k, unit. split; [exact Hin|]. split; [exact Hfmt | exact Hk].
Defined.

Lemma oversized_threshold_monotone_witness :
  accepted_root example_world (Some "/data") "/data"
  /\ 1000 <= 5000
  /\ sublist
       (report_oversized (fst (analyze_files example_world (Some "/data") 0 6 5000 3600)))
       (report_oversized (fst (analyze_files example_world (Some "/data") 0 6 1000 3600))).
Proof.
  split; [split; reflexivity|]. split; [lia|].
  apply (oversized_threshold_monotone example_world 0 6 3600 1000 5000
           (Some "/data") "/data"); [split; reflexivity | lia].
Defined.

Lemma min_duplicate_size_monotone_witness :
  accepted_root example_world (Some "/data") "/data"
  /\ 0 <= 3
  /\ exists paths',
       report_duplicates (fst (analyze_files example_world (Some "/data") 0 6 1000 3600))
         !! "ba7816bf8f01cfea414140de5dae2223b00361a396177a9cb410ff61f20015ad"
       = Some paths'
       /\ sublist ["/data/a.txt"; "/data/b.txt"] paths'.
Proof.
  split; [split; reflexivity|]. split; [lia|].
  apply (min_duplicate_size_monotone example_world 6 1000 3600 0 3
           (Some "/data") "/data"); [split; reflexivity | lia | vm_compute; reflexivity].
Defined.

Lemma confirm_action_accepts_witness :
  is_ascii " Y " = true
  /\ confirm_action "Continue?" (Some " Y ") = Some true.
Proof.
  split; [reflexivity|].
  apply (confirm_action_accepts "Continue?" " Y " eq_refl).
  exists " ", "Y"%char, " ". split; [reflexivity|]. split; [reflexivity|].
  split; [reflexivity|]. now right.
Defined.

(** ** When the age threshold cannot be computed *)

Example float_overflow_boundary :
  float_overflow (2 ^ 1024 - 2 ^ 970 - 1) = false
  /\ float_overflow (2 ^ 1024 - 2 ^ 970) = true
  /\ float_overflow (- (2 ^ 1024 - 2 ^ 970)) = true
  /\ float_overflow (6 * 30 * 24 * 3600) = false
  /\ float_overflow (7 * 10 ^ 301 * 30 * 24 * 3600) = true.
Proof. repeat split; vm_compute; reflexivity. Qed.

(** With such a number of months every visit ends in the [except] branch:
    the files are all reported as inaccessible and nothing is classified,
    the clock having been read once for each file that [os.stat] found. *)
Example months_beyond_the_float_range :
  let res := analyze_files example_world (Some "/data") 0 (7 * 10 ^ 301) 1000 3600 in
  fst res
  = Report [] [] [] ∅
      (map (fun v => "Error accessing " +:+ full_path v) (walk_files example_world "/data"))
  /\ calls (snd res)
     = map (fun v => CallStat (full_path v)) (walk_files example_world "/data")
  /\ ticks (snd res) = 10%nat.
Proof. repeat split; vm_compute; reflexivity. Qed.

(** ** The cleanup functions on the example home *)

(** [new.bin] is the second file examined under the 30 days of [.cache]:
    it is compared with the second reading of the clock, and listed when
    the clock has moved far enough by then. *)
Example cache_age_uses_the_reading_of_the_file :
  fst (cache_files_to_delete late_cleanup ["/home/ann"])
  = [ "/home/ann/.cache/thumbnails/t1.png"; "/home/ann/.cache/old.bin";
      "/home/ann/.cache/new.bin"; "/home/ann/.cache/thumbnails/t1.png" ]
  /\ w_time (cw_base late_cleanup) 0 - 19999000 <= 30 * 86400
  /\ w_time (cw_base late_cleanup) 1 - 19999000 > 30 * 86400.
Proof. repeat split; vm_compute; (reflexivity || discriminate). Qed.

Example cache_listing_names_a_file_twice :
  fst (cache_files_to_delete example_cleanup ["/home/ann"])
  = [ "/home/ann/.cache/thumbnails/t1.png"; "/home/ann/.cache/old.bin";
      "/home/ann/.cache/thumbnails/t1.png" ].
Proof. vm_compute. reflexivity. Qed.

Example cache_cleaning_counts_two :
  fst (clean_user_and_browser_caches example_cleanup false (Some "y") example_files)
  = CacheCleaned 2.
Proof. vm_compute. reflexivity. Qed.

Example trash_dry_run_reports_three :
  empty_trash_directory example_cleanup true None example_files
  = (TrashDryRun 3, example_files).
Proof. vm_compute. reflexivity. Qed.

Example system_cleanup_continues_after_failure :
  clean_system_packages_and_logs
    (fun cmd => match cmd with
                | [_; _; "autoclean"] => RunCalledProcessError
                | _ => RunOk
                end)
    (Some "Y")
  = (SystemDone, system_commands).
Proof. vm_compute. reflexivity. Qed.

Example confirm_action_declines_yes : confirm_action "Continue?" (Some "yes") = Some false.
Proof. reflexivity. Qed.
